(** * gistapi: searching a user's gists with a regular expression

    A shallow embedding of [gistapi/gistapi.py] and the properties of its
    search pipeline: the paginated lister [gists_for_user], the per-file
    coroutine [check_file_contains_pattern], the concurrent scan
    [gist_contains_pattern], the route [search] and the Flask error handler
    [exception_handler].

    Conventions of the embedding.
    - JSON documents are Python objects, so they are kept as a dynamic tree
      ([json_value]); subscripting, [.values()], truthiness and [+=] raise
      the exceptions Python raises when the data has another shape.
    - Effects are explicit: a computation maps a [state] (the requests sent
      so far and the lines written to the application log) to a result or
      a raised exception; [None] stands for a run that never returns (the
      [while True] of the lister, or an event loop whose tasks never
      complete).
    - The remote service is a [world]: what each request is answered with,
      and in which order the responses of concurrent requests arrive.
    - The [re] module is a parameter ([re.Impl]); [PyRe] models it on a
      fragment of the pattern syntax. *)

From Stdlib Require Import String Ascii List ZArith Arith Lia Bool DecimalString.
Import ListNotations.
Open Scope string_scope.
Open Scope list_scope.

Set Implicit Arguments.
Set Warnings "-register-all".

(** ** Python objects and exceptions *)

(** A parsed JSON document.  An object keeps its items in insertion order,
    with pairwise distinct keys; numbers are kept as integers (a number
    with a fraction behaves like a non-zero integer in every operation
    below). *)

Inductive json_value : Type :=
| JNull
| JBool (b : bool)
| JNumber (n : Z)
| JString (s : string)
| JArray (items : list json_value)
| JObject (items : list (string * json_value)).

Inductive exn : Type :=
| PatternFound
| GitHubError (status_code : Z) (payload : json_value)
| re_error (msg : string)
| KeyError (key : string)
| TypeError
| AttributeError
| ConnectionError
| ClientError.

Inductive result (A : Type) : Type :=
| Ok (a : A)
| Raise (e : exn).
Arguments Raise {A} e.

(** [not data] is [negb (truthy data)]. *)
Definition truthy (v : json_value) : bool :=
  match v with
  | JNull => false
  | JBool b => b
  | JNumber n => negb (n =? 0)%Z
  | JString s => negb (String.length s =? 0)%nat
  | JArray items => negb (length items =? 0)%nat
  | JObject items => negb (length items =? 0)%nat
  end.

(** [gists += data]: a list is extended by the elements of any iterable. *)
Definition list_iadd (gists : list json_value) (data : json_value)
  : result (list json_value) :=
  match data with
  | JArray items => Ok (gists ++ items)
  | JObject items => Ok (gists ++ map (fun kv => JString (fst kv)) items)
  | JString s =>
      Ok (gists ++ map (fun c => JString (String c EmptyString))
                       (list_ascii_of_string s))
  | JNull | JBool _ | JNumber _ => Raise TypeError
  end.

Fixpoint dict_get (items : list (string * json_value)) (key : string)
  : option json_value :=
  match items with
  | [] => None
  | (k, v) :: items' => if String.eqb k key then Some v else dict_get items' key
  end.

(** [obj[key]] for a string key. *)
Definition getitem (obj : json_value) (key : string) : result json_value :=
  match obj with
  | JObject items =>
      match dict_get items key with
      | Some v => Ok v
      | None => Raise (KeyError key)
      end
  | _ => Raise TypeError
  end.

(** [obj.values()] *)
Definition values (obj : json_value) : result (list json_value) :=
  match obj with
  | JObject items => Ok (map snd items)
  | _ => Raise AttributeError
  end.

(** ** The remote service and the observable state *)

Module requests.
Record Response : Type := { status_code : Z; json : json_value }.
End requests.

Module aiohttp.
Record ClientResponse : Type :=
  { status : Z; text : string; json : json_value }.
End aiohttp.

Inductive net_call : Type :=
| RequestsGet (url : string) (page : nat)
| SessionGet (url : string).

(** A call [app.logger.error(fmt, payload, status_code)]. *)
Record log_record : Type :=
  { log_msg : string; log_payload : json_value; log_status : Z }.

Record state : Type := { net : list net_call; log : list log_record }.

(** [requests_get url page] answers [requests.get(url, params={"page": page})]
    and [session_get url] answers [session.get(url)]; [None] is a request
    that fails below HTTP.  [completion_order] gives, from the requests sent
    so far, the order in which the event loop sees the pending tasks of a
    scan complete (positions in the task list). *)
Record world : Type := {
  requests_get : string -> nat -> option requests.Response;
  session_get : string -> option aiohttp.ClientResponse;
  completion_order : list net_call -> list nat
}.

Definition OK : Z := 200.

(** ** Computations *)

Definition M (A : Type) : Type := state -> option (result A * state).

Definition ret {A} (a : A) : M A := fun st => Some (Ok a, st).
Definition raise {A} (e : exn) : M A := fun st => Some (Raise e, st).
Definition diverge {A} : M A := fun _ => None.

Definition bind {A B} (m : M A) (k : A -> M B) : M B :=
  fun st =>
    match m st with
    | Some (Ok a, st') => k a st'
    | Some (Raise e, st') => Some (Raise e, st')
    | None => None
    end.

Definition lift {A} (r : result A) : M A := fun st => Some (r, st).

Declare Scope py_scope.
Delimit Scope py_scope with py.
Notation "x <- m ;; k" := (bind m (fun x => k))
  (at level 61, m at next level, right associativity) : py_scope.
Open Scope py_scope.

Definition send (c : net_call) : M unit :=
  fun st => Some (Ok tt, {| net := net st ++ [c]; log := log st |}).

Definition logger_error (fmt : string) (payload : json_value) (code : Z)
  : state -> state :=
  fun st =>
    {| net := net st;
       log := log st ++ [{| log_msg := fmt; log_payload := payload;
                            log_status := code |}] |}.

(** ** [gists_for_user] *)

Section Lister.
Variable w : world.

Definition requests_get_page (url : string) (page : nat)
  : M requests.Response :=
  _ <- send (RequestsGet url page) ;;
  match requests_get w url page with
  | Some response => ret response
  | None => raise ConnectionError
  end.

Definition gists_url_for (username : string) : string :=
  ("https://api.github.com/users/" ++ username ++ "/gists")%string.

(** The [while True] loop, one iteration per unit of fuel. *)
Fixpoint gists_for_user_loop (fuel : nat) (gists_url : string) (page : nat)
         (gists : list json_value) : M (list json_value) :=
  match fuel with
  | 0 => diverge
  | S fuel' =>
      response <- requests_get_page gists_url page ;;
      if negb (requests.status_code response =? OK)%Z then
        raise (GitHubError (requests.status_code response)
                           (requests.json response))
      else
        let data := requests.json response in
        if negb (truthy data) then ret gists
        else
          gists' <- lift (list_iadd gists data) ;;
          gists_for_user_loop fuel' gists_url (page + 1) gists'
  end.

Definition gists_for_user (fuel : nat) (username : string)
  : M (list json_value) :=
  gists_for_user_loop fuel (gists_url_for username) 1 [].
End Lister.

(** ** The [re] module, as far as the program uses it *)

Module re.
Definition DOTALL : Z := 16.
Definition S : Z := DOTALL.

(** [compile pattern flags] is [inl msg] when [re.compile] raises
    [re.error], [msg] being [str(error)]; [Pattern_match p content] is
    [p.match(content) is not None]. *)
Class Impl : Type := {
  Pattern : Type;
  compile : string -> Z -> string + Pattern;
  Pattern_match : Pattern -> string -> bool
}.
End re.

(** ** The scan of one gist *)

(** A task running [check_file_contains_pattern]: not yet past
    [semaphore.acquire()], waiting for the answer to its GET, or done
    (returned [None], or raised). *)
Inductive task_state : Type :=
| Blocked (file_url : json_value)
| Fetching (file_url : string)
| Finished (exc : option exn).

(** The future returned by [asyncio.gather]: the number of children that
    have finished, and the result once it is set ([Some None]: the list of
    results; [Some (Some exc)]: an exception). *)
Record gather_future : Type :=
  { nfinished : nat; outer : option (option exn) }.

Record event_loop : Type := {
  tasks : list task_state;
  semaphore : nat;
  future : gather_future;
  requested : list net_call
}.

Section Scanner.
Context {RE : re.Impl}.
Variable w : world.

(** [check_file_contains_pattern] from the moment the answer to
    [session.get(file_url)] is there. *)
Definition check_file_contains_pattern (pattern : re.Pattern)
           (answer : option aiohttp.ClientResponse) : option exn :=
  match answer with
  | None => Some ClientError
  | Some response =>
      if (aiohttp.status response =? OK)%Z then
        let content := aiohttp.text response in
        if re.Pattern_match pattern content then Some PatternFound
        else None
      else
        let data := aiohttp.json response in
        Some (GitHubError (aiohttp.status response) data)
  end.

(** Tasks run up to their first suspension, in creation order, while the
    semaphore has a permit: a task whose [file_url] is a string sends its
    GET and keeps the permit; any other [file_url] makes [session.get]
    raise at once, which frees the permit again.  Returns the tasks, the
    semaphore value, the requests sent and the exceptions of the tasks
    that finished. *)
Fixpoint enter (sem : nat) (ts : list task_state)
  : list task_state * nat * list net_call * list (option exn) :=
  match ts with
  | [] => ([], sem, [], [])
  | Blocked file_url :: ts' =>
      match sem with
      | 0 => (ts, 0, [], [])
      | S sem' =>
          match file_url with
          | JString u =>
              let '(r, s, reqs, done) := enter sem' ts' in
              (Fetching u :: r, s, SessionGet u :: reqs, done)
          | _ =>
              let '(r, s, reqs, done) := enter sem ts' in
              (Finished (Some TypeError) :: r, s, reqs,
               Some TypeError :: done)
          end
      end
  | t :: ts' =>
      let '(r, s, reqs, done) := enter sem ts' in (t :: r, s, reqs, done)
  end.

(** The callback [gather] attaches to each child. *)
Definition _done_callback (nfuts : nat) (g : gather_future)
           (fut : option exn) : gather_future :=
  let n := S (nfinished g) in
  match outer g with
  | Some _ => {| nfinished := n; outer := outer g |}
  | None =>
      match fut with
      | Some exc => {| nfinished := n; outer := Some (Some exc) |}
      | None =>
          if (n =? nfuts)%nat then {| nfinished := n; outer := Some None |}
          else {| nfinished := n; outer := None |}
      end
  end.

(** [asyncio.gather] over [nfuts] tasks. *)
Definition gather (nfuts : nat) : gather_future :=
  {| nfinished := 0;
     outer := if (nfuts =? 0)%nat then Some None else None |}.

Fixpoint set_nth {A} (i : nat) (x : A) (l : list A) : list A :=
  match l, i with
  | [], _ => []
  | _ :: l', 0 => x :: l'
  | y :: l', S i' => y :: set_nth i' x l'
  end.

(** The answer for task [i] arrives: the task runs to its end, leaves the
    semaphore, and the callbacks of [gather] run. *)
Definition resume (pattern : re.Pattern) (nfuts i : nat) (lp : event_loop)
  : event_loop :=
  match nth_error (tasks lp) i with
  | Some (Fetching file_url) =>
      let exc := check_file_contains_pattern pattern (session_get w file_url) in
      let '(ts, sem, reqs, done) :=
        enter (S (semaphore lp)) (set_nth i (Finished exc) (tasks lp)) in
      {| tasks := ts;
         semaphore := sem;
         future := fold_left (_done_callback nfuts) (exc :: done) (future lp);
         requested := requested lp ++ reqs |}
  | _ => lp
  end.

(** [loop.run_until_complete]: answers are processed in the order given
    until the awaited future is done; [None] when it never is. *)
Fixpoint run_until_complete (pattern : re.Pattern) (nfuts : nat)
         (order : list nat) (lp : event_loop) : option event_loop :=
  match outer (future lp) with
  | Some _ => Some lp
  | None =>
      match order with
      | [] => None
      | i :: order' =>
          run_until_complete pattern nfuts order' (resume pattern nfuts i lp)
      end
  end.

Fixpoint raw_urls (files : list json_value) : result (list json_value) :=
  match files with
  | [] => Ok []
  | file :: files' =>
      match getitem file "raw_url" with
      | Raise e => Raise e
      | Ok u =>
          match raw_urls files' with
          | Raise e => Raise e
          | Ok us => Ok (u :: us)
          end
      end
  end.

(** [[file["raw_url"] for file in gist["files"].values()]] *)
Definition files_urls_of (gist : json_value) : result (list json_value) :=
  match getitem gist "files" with
  | Raise e => Raise e
  | Ok files =>
      match values files with
      | Raise e => Raise e
      | Ok vs => raw_urls vs
      end
  end.

(** The state of the event loop once every task has had its first step. *)
Definition start (files_urls : list json_value) : event_loop :=
  let nfuts := length files_urls in
  let '(ts, sem, reqs, done) := enter nfuts (map Blocked files_urls) in
  {| tasks := ts;
     semaphore := sem;
     future := fold_left (_done_callback nfuts) done (gather nfuts);
     requested := reqs |}.

Definition gist_contains_pattern (gist : json_value) (pattern : re.Pattern)
  : M bool :=
  files_urls <- lift (files_urls_of gist) ;;
  fun st =>
    let nfuts := length files_urls in
    let lp := start files_urls in
    let order := completion_order w (net st ++ requested lp) in
    match run_until_complete pattern nfuts order lp with
    | None => None
    | Some lp' =>
        let st' := {| net := net st ++ requested lp'; log := log st |} in
        match outer (future lp') with
        | None => None
        | Some None => Some (Ok false, st')
        | Some (Some PatternFound) => Some (Ok true, st')
        | Some (Some exc) => Some (Raise exc, st')
        end
    end.

Definition gist_contains_pattern_sync (gist : json_value)
           (pattern : re.Pattern) : M bool :=
  gist_contains_pattern gist pattern.

(** ** [search] *)

Record post_data : Type := { username : string; pattern : string }.

Definition re_compile (pat : string) (flags : Z) : M re.Pattern :=
  match re.compile pat flags with
  | inl msg => raise (re_error msg)
  | inr p => ret p
  end.

(** The [for gist in gists] loop. *)
Fixpoint search_loop (gists : list json_value) (pat : string)
         (matches : list json_value) : M (list json_value) :=
  match gists with
  | [] => ret matches
  | gist :: gists' =>
      p <- re_compile pat re.S ;;
      found <- gist_contains_pattern_sync gist p ;;
      if found then
        url <- lift (getitem gist "url") ;;
        search_loop gists' pat (matches ++ [url])
      else search_loop gists' pat matches
  end.

Definition search_result (data : post_data) (matches : list json_value)
  : json_value :=
  JObject [("status", JString "success");
           ("username", JString (username data));
           ("pattern", JString (pattern data));
           ("matches", JArray matches)].

Definition search (fuel : nat) (data : post_data) : M json_value :=
  gists <- gists_for_user w fuel (username data) ;;
  matches <- search_loop gists (pattern data) [] ;;
  ret (search_result data matches).

(** ** The error handler and the dispatch of a request *)

Record http_response : Type := { status_code : Z; body : json_value }.

Definition make_response (body : json_value) (code : Z) : http_response :=
  {| status_code := code; body := body |}.

Definition internal_error : json_value :=
  JObject [("error", JString "Internal error. Please contact technical support.")].

Definition exception_handler (error : exn) (st : state)
  : http_response * state :=
  match error with
  | GitHubError code payload =>
      (make_response internal_error 500,
       logger_error "GitHub API error: %s (%s)" payload code st)
  | re_error msg =>
      (make_response (JObject [("error", JString ("Invalid pattern, " ++ msg)%string)])
                     400, st)
  | _ => (make_response internal_error 500, st)
  end.

(** A validated [POST /api/v1/search], through the route or the handler. *)
Definition post_search (fuel : nat) (data : post_data) (st : state)
  : option (http_response * state) :=
  match search fuel data st with
  | None => None
  | Some (Ok result, st') => Some (make_response result 200, st')
  | Some (Raise error, st') => Some (exception_handler error st')
  end.
End Scanner.

(** ** A model of [re] on a fragment of the pattern syntax

    Patterns built from literal characters, [.], character sets [[...]]
    (with ranges and negation), groups [(...)], alternation [|] and the
    greedy repeats [*], [+], [?].  Anchors, escapes, counted, lazy and
    possessive repeats and group extensions are outside the fragment; there
    [compile] answers with a diagnostic of the model's own. *)

Module PyRe.
Inductive regex : Type :=
| Fail
| Eps
| Lit (c : ascii)
| Any
| CharSet (negate : bool) (ranges : list (ascii * ascii))
| Cat (r1 r2 : regex)
| Alt (r1 r2 : regex)
| Star (r : regex).

Definition newline : ascii := ascii_of_nat 10.

Definition in_range (c : ascii) (r : ascii * ascii) : bool :=
  (nat_of_ascii (fst r) <=? nat_of_ascii c)%nat
  && (nat_of_ascii c <=? nat_of_ascii (snd r))%nat.

(** What [.] accepts: everything in dot-all mode, else all but a newline. *)
Definition any_accepts (dotall : bool) (c : ascii) : bool :=
  dotall || negb (Ascii.eqb c newline).

Definition set_accepts (negate : bool) (ranges : list (ascii * ascii))
           (c : ascii) : bool :=
  xorb negate (existsb (in_range c) ranges).

(** The strings a pattern matches from its first to its last character. *)
Inductive lang (dotall : bool) : regex -> string -> Prop :=
| lang_eps : lang dotall Eps ""
| lang_lit c : lang dotall (Lit c) (String c "")
| lang_any c : any_accepts dotall c = true -> lang dotall Any (String c "")
| lang_set negate ranges c :
    set_accepts negate ranges c = true ->
    lang dotall (CharSet negate ranges) (String c "")
| lang_cat r1 r2 s1 s2 :
    lang dotall r1 s1 -> lang dotall r2 s2 ->
    lang dotall (Cat r1 r2) (s1 ++ s2)%string
| lang_alt_l r1 r2 s : lang dotall r1 s -> lang dotall (Alt r1 r2) s
| lang_alt_r r1 r2 s : lang dotall r2 s -> lang dotall (Alt r1 r2) s
| lang_star_nil r : lang dotall (Star r) ""
| lang_star_app r s1 s2 :
    lang dotall r s1 -> lang dotall (Star r) s2 ->
    lang dotall (Star r) (s1 ++ s2)%string.

Fixpoint nullable (r : regex) : bool :=
  match r with
  | Fail | Lit _ | Any | CharSet _ _ => false
  | Eps | Star _ => true
  | Cat r1 r2 => nullable r1 && nullable r2
  | Alt r1 r2 => nullable r1 || nullable r2
  end.

(** What is left of [r] to match once [c] has been read. *)
Fixpoint deriv (dotall : bool) (c : ascii) (r : regex) : regex :=
  match r with
  | Fail | Eps => Fail
  | Lit d => if Ascii.eqb c d then Eps else Fail
  | Any => if any_accepts dotall c then Eps else Fail
  | CharSet negate ranges =>
      if set_accepts negate ranges c then Eps else Fail
  | Cat r1 r2 =>
      if nullable r1
      then Alt (Cat (deriv dotall c r1) r2) (deriv dotall c r2)
      else Cat (deriv dotall c r1) r2
  | Alt r1 r2 => Alt (deriv dotall c r1) (deriv dotall c r2)
  | Star r1 => Cat (deriv dotall c r1) (Star r1)
  end.

(** [Pattern.match]: is there a match that begins at position 0. *)
Fixpoint match_at_start (dotall : bool) (r : regex) (s : string) : bool :=
  nullable r ||
  match s with
  | EmptyString => false
  | String c s' => match_at_start dotall (deriv dotall c r) s'
  end.

(** *** Parsing *)

Inductive parse_error : Type :=
| Syntax (msg : string) (pos : nat)
| Unsupported.

Definition one_of (c : ascii) (s : string) : bool :=
  existsb (Ascii.eqb c) (list_ascii_of_string s).

Definition seq_of (items : list regex) : regex :=
  fold_left (fun acc r => Cat r acc) items Eps.

Definition repeat_of (op : ascii) (item : regex) : regex :=
  if one_of op "*" then Star item
  else if one_of op "+" then Cat item (Star item)
  else Alt item Eps.

(** The items of a character set, from after its [[] (and [^]); [here] is
    the position of the [[]. *)
Fixpoint parse_set (src : list ascii) (here pos : nat)
         (acc : list (ascii * ascii))
  : parse_error + (list (ascii * ascii) * list ascii * nat) :=
  match src with
  | [] => inl (Syntax "unterminated character set" here)
  | this :: rest =>
      if one_of this "]" && negb (length acc =? 0)%nat
      then inr (rev acc, rest, pos + 1)
      else
        match rest with
        | dash :: rest1 =>
            if one_of dash "-" then
              match rest1 with
              | [] => inl (Syntax "unterminated character set" here)
              | that :: rest2 =>
                  if one_of that "]"
                  then inr (rev ((dash, dash) :: (this, this) :: acc),
                            rest2, pos + 3)
                  else if (nat_of_ascii that <? nat_of_ascii this)%nat
                  then inl (Syntax ("bad character range "
                                    ++ String this (String dash (String that "")))
                                   pos)
                  else parse_set rest2 here (pos + 3) ((this, that) :: acc)
              end
            else parse_set rest here (pos + 1) ((this, this) :: acc)
        | [] => parse_set rest here (pos + 1) ((this, this) :: acc)
        end
  end.

(** [_parse] reads a sequence of items up to [|], [)] or the end;
    [_parse_sub] reads the alternatives of a group.  [items] holds the
    sequence read so far, last item first; [rep] tells that the last item
    is a repeat. *)
Fixpoint _parse (fuel : nat) (src : list ascii) (pos : nat)
         (items : list regex) (rep : bool) {struct fuel}
  : parse_error + (regex * list ascii * nat) :=
  match fuel with
  | 0 => inl Unsupported
  | S fuel' =>
      match src with
      | [] => inr (seq_of items, [], pos)
      | this :: rest =>
          if one_of this "|)" then inr (seq_of items, src, pos)
          else if one_of this "[" then
            let '(negate, body, p) :=
              match rest with
              | c :: rest' =>
                  if one_of c "^" then (true, rest', pos + 2)
                  else (false, rest, pos + 1)
              | [] => (false, rest, pos + 1)
              end in
            match parse_set body pos p [] with
            | inl e => inl e
            | inr (ranges, rest', pos') =>
                _parse fuel' rest' pos' (CharSet negate ranges :: items) false
            end
          else if one_of this "*+?" then
            match items with
            | [] => inl (Syntax "nothing to repeat" pos)
            | item :: items' =>
                if rep then inl (Syntax "multiple repeat" pos)
                else
                  match rest with
                  | c :: _ =>
                      if one_of c "?+" then inl Unsupported
                      else _parse fuel' rest (pos + 1)
                                  (repeat_of this item :: items') true
                  | [] => _parse fuel' rest (pos + 1)
                                 (repeat_of this item :: items') true
                  end
            end
          else if one_of this "." then
            _parse fuel' rest (pos + 1) (Any :: items) false
          else if one_of this "(" then
            match rest with
            | c :: _ =>
                if one_of c "?" then inl Unsupported
                else
                  match _parse_sub fuel' rest (pos + 1) with
                  | inl e => inl e
                  | inr (r, close :: rest', pos') =>
                      _parse fuel' rest' (pos' + 1) (r :: items) false
                  | inr (_, [], _) =>
                      inl (Syntax "missing ), unterminated subpattern" pos)
                  end
            | [] => inl (Syntax "missing ), unterminated subpattern" pos)
            end
          else if one_of this "{^$" then inl Unsupported
          else _parse fuel' rest (pos + 1) (Lit this :: items) false
      end
  end
with _parse_sub (fuel : nat) (src : list ascii) (pos : nat) {struct fuel}
  : parse_error + (regex * list ascii * nat) :=
  match fuel with
  | 0 => inl Unsupported
  | S fuel' =>
      match _parse fuel' src pos [] false with
      | inl e => inl e
      | inr (r, bar :: rest, pos') =>
          if one_of bar "|" then
            match _parse_sub fuel' rest (pos' + 1) with
            | inl e => inl e
            | inr (r', rest', pos'') => inr (Alt r r', rest', pos'')
            end
          else inr (r, bar :: rest, pos')
      | inr (r, [], pos') => inr (r, [], pos')
      end
  end.

Definition parse (pattern : string) : parse_error + regex :=
  let src := list_ascii_of_string pattern in
  if existsb (fun c => one_of c "\") src then inl Unsupported
  else
    match _parse_sub (2 * length src + 2) src 0 with
    | inl e => inl e
    | inr (r, [], _) => inr r
    | inr (_, _ :: _, pos) => inl (Syntax "unbalanced parenthesis" pos)
    end.

(** *** [str(error)] *)

Definition string_of_nat (n : nat) : string :=
  NilEmpty.string_of_uint (Nat.to_uint n).

Fixpoint line_col (src : list ascii) (pos line col : nat) : nat * nat :=
  match pos, src with
  | S pos', c :: rest =>
      if Ascii.eqb c newline then line_col rest pos' (S line) 1
      else line_col rest pos' line (S col)
  | _, _ => (line, col)
  end.

Definition error_str (pattern msg : string) (pos : nat) : string :=
  let src := list_ascii_of_string pattern in
  let at_pos := (msg ++ " at position " ++ string_of_nat pos)%string in
  if existsb (Ascii.eqb newline) src then
    let '(line, col) := line_col src pos 1 1 in
    (at_pos ++ " (line " ++ string_of_nat line ++ ", column "
            ++ string_of_nat col ++ ")")%string
  else at_pos.

(** *** The compiled pattern *)

Record Pattern : Type := { ast : regex; flags : Z }.

Definition compile (pattern : string) (flags : Z) : string + Pattern :=
  if negb ((flags =? 0)%Z || (flags =? re.DOTALL)%Z)
  then inl "outside the modelled fragment"
  else
    match parse pattern with
    | inr r => inr {| ast := r; flags := flags |}
    | inl (Syntax msg pos) => inl (error_str pattern msg pos)
    | inl Unsupported => inl "outside the modelled fragment"
    end.

Definition dotall (p : Pattern) : bool := Z.testbit (flags p) 4.

Definition Pattern_match (p : Pattern) (content : string) : bool :=
  match_at_start (dotall p) (ast p) content.
End PyRe.

#[export] Instance PyRe_Impl : re.Impl := {
  re.Pattern := PyRe.Pattern;
  re.compile := PyRe.compile;
  re.Pattern_match := PyRe.Pattern_match
}.

(** ** The fixtures of the test suite ([tests/utils.py], [tests/test_search.py]) *)

Module tests.
Definition TEST_USERNAME : string := "testuser".

Definition TEST_GIST_FILES : list (string * string) :=
  [("file1.txt", "
        Do what you can, with what you have, where you are. 
          - Theodore Roosevelt
        ");
   ("file2.txt", "
        Where's the beef? 
          - Clara Peller
        ");
   ("file3.txt", "
        Perfect is the enemy of good.
          - Voltaire
        ")].

(** [hashlib.md5(s.encode()).hexdigest()], tabulated on the strings the
    fixtures hash. *)
Definition md5_hexdigest (s : string) : string :=
  let table :=
    [("testuser['file1.txt', 'file2.txt', 'file3.txt']",
      "ee6fa865658dbbd40b27e2e66a904f06");
     ("testuser['file1.txt', 'file2.txt']", "3203a4b8ee396f5e410956c8934f7e44");
     ("testuser['file3.txt']", "219e28f93bc677016f62869adf7bb8c0");
     ("testuser['file1.txt']", "c4d3fe76e27a5c82e777baaca1a78a20");
     ("file1.txt", "bd01856bfd2065d0d1ee20c03bd3a9af");
     ("file2.txt", "273604bfeef7126abe1f9bff1e45126c");
     ("file3.txt", "113f6696d140c167070bcc5e24791f35")] in
  match find (fun kv => String.eqb (fst kv) s) table with
  | Some kv => snd kv
  | None => ""
  end.

Fixpoint insert_sorted (x : string) (l : list string) : list string :=
  match l with
  | [] => [x]
  | y :: l' => if String.leb x y then x :: l else y :: insert_sorted x l'
  end.

Definition sorted (l : list string) : list string :=
  fold_right insert_sorted [] l.

(** [str] of a list of strings. *)
Definition str_list (l : list string) : string :=
  ("[" ++ String.concat ", " (map (fun x => "'" ++ x ++ "'") l) ++ "]")%string.

Definition fake_gist_id (username : string) (filenames : list string)
  : string :=
  md5_hexdigest (username ++ str_list (sorted filenames))%string.

Definition raw_url_of (username gist_id filename : string) : string :=
  ("https://gist.githubusercontent.com/" ++ username ++ "/" ++ gist_id
     ++ "/raw/" ++ md5_hexdigest filename ++ "/" ++ filename)%string.

Definition fake_gist (username : string) (filenames : list string)
  : json_value :=
  let gist_id := fake_gist_id username filenames in
  let users := "https://api.github.com/users/" in
  let files :=
    map (fun filename =>
           (filename,
            JObject [("filename", JString filename);
                     ("type", JString "text/plain");
                     ("language", JString "Text");
                     ("raw_url", JString (raw_url_of username gist_id filename));
                     ("size", JNumber 75)]))
        filenames in
  JObject
    [("url", JString ("https://api.github.com/gists/" ++ gist_id)%string);
     ("forks_url",
      JString ("https://api.github.com/gists/" ++ gist_id ++ "/forks")%string);
     ("commits_url",
      JString ("https://api.github.com/gists/" ++ gist_id ++ "/commits")%string);
     ("id", JString gist_id);
     ("node_id",
      JString "G_kwDOACkMq9oAIDQ4ZjdmMGFlNDQwOWQwOWE3MDM2MThkZDkyNjVhZDg3");
     ("git_pull_url",
      JString ("https://gist.github.com/" ++ gist_id ++ ".git")%string);
     ("git_push_url",
      JString ("https://gist.github.com/" ++ gist_id ++ ".git")%string);
     ("html_url", JString ("https://gist.github.com/" ++ gist_id)%string);
     ("files", JObject files);
     ("public", JBool true);
     ("created_at", JString "2023-03-03T12:54:32Z");
     ("updated_at", JString "2023-03-03T12:54:32Z");
     ("description", JString "");
     ("comments", JNumber 0);
     ("user", JString "None");
     ("comments_url",
      JString ("https://api.github.com/gists/" ++ gist_id ++ "/comments")%string);
     ("owner",
      JObject [("login", JString "{username}");
               ("id", JNumber 2690219);
               ("node_id", JString "MDQ6VXNlcjI2OTAyMTk=");
               ("avatar_url",
                JString "https://avatars.githubusercontent.com/u/2690219?v=4");
               ("gravatar_id", JString "");
               ("url", JString (users ++ username)%string);
               ("html_url", JString ("https://github.com/" ++ username)%string);
               ("followers_url",
                JString (users ++ username ++ "/followers")%string);
               ("following_url",
                JString (users ++ username ++ "/following{/other_user}")%string);
               ("gists_url",
                JString (users ++ username ++ "/gists{/gist_id}")%string);
               ("starred_url",
                JString (users ++ username ++ "/starred{/owner}{/repo}")%string);
               ("subscriptions_url",
                JString (users ++ username ++ "/subscriptions")%string);
               ("organizations_url", JString (users ++ username ++ "/orgs")%string);
               ("repos_url", JString (users ++ username ++ "/repos")%string);
               ("events_url",
                JString (users ++ username ++ "/events{/privacy}")%string);
               ("received_events_url",
                JString (users ++ username ++ "/received_events")%string);
               ("type", JString "User");
               ("site_admin", JBool false)]);
     ("truncated", JBool false)].

(** The registrations of [requests_mock] and [aioresponses]. *)
Record mocks : Type := {
  pages : list (string * nat * requests.Response);
  raw_files : list (string * aiohttp.ClientResponse)
}.

Definition no_mocks : mocks := {| pages := []; raw_files := [] |}.

Definition gists_page_url (username : string) : string :=
  ("https://api.github.com/users/" ++ username ++ "/gists")%string.

(** [mock_gist_files_requests] *)
Definition mock_gist_files_requests (m : mocks) (username : string)
           (files : list (string * string)) : mocks :=
  let gist_id := fake_gist_id username (map fst files) in
  {| pages := pages m;
     raw_files :=
       raw_files m
       ++ map (fun ft =>
                 (raw_url_of username gist_id (fst ft),
                  {| aiohttp.status := 200; aiohttp.text := snd ft;
                     aiohttp.json := JNull |}))
              files |}.

(** [mock_gist_request], for [per_page > 0]: page [k + 1] holds
    [gists[k * per_page : (k + 1) * per_page]] and one more page is
    empty. *)
Definition mock_gist_request (m : mocks) (username : string)
           (gists : list json_value) (per_page : nat) : mocks :=
  let npages := (length gists + per_page - 1) / per_page in
  let page_of k :=
    (gists_page_url username, k + 1,
     {| requests.status_code := 200;
        requests.json := JArray (firstn per_page (skipn (k * per_page) gists)) |}) in
  {| pages :=
       pages m ++ map page_of (seq 0 npages)
       ++ [(gists_page_url username, npages + 1,
            {| requests.status_code := 200; requests.json := JArray [] |})];
     raw_files := raw_files m |}.

(** A registration of [requests_mock.get] or [aioresponse_mock.get] with
    an error status and a JSON payload. *)
Definition mock_page_error (m : mocks) (username : string) (page : nat)
           (code : Z) (payload : json_value) : mocks :=
  {| pages :=
       pages m ++ [(gists_page_url username, page,
                    {| requests.status_code := code; requests.json := payload |})];
     raw_files := raw_files m |}.

Definition mock_file_error (m : mocks) (file_url : string) (code : Z)
           (payload : json_value) : mocks :=
  {| pages := pages m;
     raw_files :=
       raw_files m
       ++ [(file_url, {| aiohttp.status := code; aiohttp.text := "";
                         aiohttp.json := payload |})] |}.

(** The world the mocks make: an address that was not registered fails
    to connect. *)
Definition mocked (m : mocks) (order : list nat) : world :=
  {| requests_get := fun url page =>
       match find (fun r => String.eqb (fst (fst r)) url
                            && (snd (fst r) =? page)%nat) (pages m) with
       | Some r => Some (snd r)
       | None => None
       end;
     session_get := fun url =>
       match find (fun r => String.eqb (fst r) url) (raw_files m) with
       | Some r => Some (snd r)
       | None => None
       end;
     completion_order := fun _ => order |}.

Definition empty_state : state := {| net := []; log := [] |}.
End tests.

(** ** Notions used in the statements *)

Definition ceil_div (n p : nat) : nat := (n + p - 1) / p.

(** Page [page] (counted from 1) of a listing served [per_page] records at
    a time. *)
Definition page_slice (per_page : nat) (all : list json_value) (page : nat)
  : list json_value :=
  firstn per_page (skipn ((page - 1) * per_page) all).

Definition page_requests (url : string) (first count : nat) : list net_call :=
  map (RequestsGet url) (seq first count).

Definition sent (st : state) (calls : list net_call) : state :=
  {| net := net st ++ calls; log := log st |}.

Definition page_response (items : list json_value) : requests.Response :=
  {| requests.status_code := OK; requests.json := JArray items |}.

(** The listing endpoint holds the records [all] and serves them
    [per_page] at a time: every page up to the first empty one is answered
    with success. *)
Definition serves (w : world) (url : string) (per_page : nat)
           (all : list json_value) : Prop :=
  forall page,
    1 <= page <= ceil_div (length all) per_page + 1 ->
    requests_get w url page = Some (page_response (page_slice per_page all page)).

(** The GETs a scan sends: one per file whose [raw_url] is a string. *)
Fixpoint gets (files_urls : list json_value) : list net_call :=
  match files_urls with
  | [] => []
  | JString u :: rest => SessionGet u :: gets rest
  | _ :: rest => gets rest
  end.

Section Notions.
Context {RE : re.Impl}.
Variable w : world.

Definition file_requests (gist : json_value) : list net_call :=
  match files_urls_of gist with
  | Ok files_urls => gets files_urls
  | Raise _ => []
  end.

(** The file behind [file_url] was fetched with success and its content
    is matched by the pattern. *)
Definition file_matches (p : re.Pattern) (file_url : json_value) : bool :=
  match file_url with
  | JString u =>
      match session_get w u with
      | Some response =>
          (aiohttp.status response =? OK)%Z
          && re.Pattern_match p (aiohttp.text response)
      | None => false
      end
  | _ => false
  end.

Definition gist_matches (p : re.Pattern) (gist : json_value) : bool :=
  match files_urls_of gist with
  | Ok files_urls => existsb (file_matches p) files_urls
  | Raise _ => false
  end.

Definition has_matching_file (p : re.Pattern) (gist : json_value) : Prop :=
  exists files_urls u response,
    files_urls_of gist = Ok files_urls /\
    In (JString u) files_urls /\
    session_get w u = Some response /\
    aiohttp.status response = OK /\
    re.Pattern_match p (aiohttp.text response) = true.

(** [url] is what [gist["url"]] evaluates to. *)
Definition url_of (gist url : json_value) : Prop := getitem gist "url" = Ok url.

(** How a task that has run ends: its answer decides when its [file_url]
    is a string; otherwise [session.get] raised. *)
Definition fate (p : re.Pattern) (file_url : json_value) : option exn :=
  match file_url with
  | JString u => check_file_contains_pattern p (session_get w u)
  | _ => Some TypeError
  end.

(** The state a task is in after its first step, and the exceptions of
    the tasks that end there. *)
Definition first_state (file_url : json_value) : task_state :=
  match file_url with
  | JString u => Fetching u
  | _ => Finished (Some TypeError)
  end.

Fixpoint immediate (files_urls : list json_value) : list (option exn) :=
  match files_urls with
  | [] => []
  | JString _ :: rest => immediate rest
  | _ :: rest => Some TypeError :: immediate rest
  end.

(** A task of the scan is waiting for its answer or has ended as its
    [fate] says. *)
Definition settled (p : re.Pattern) (file_url : json_value)
           (t : task_state) : Prop :=
  t = Finished (fate p file_url) \/
  exists u, file_url = JString u /\ t = Fetching u.

Fixpoint finished_count (ts : list task_state) : nat :=
  match ts with
  | [] => 0
  | Finished _ :: ts' => S (finished_count ts')
  | _ :: ts' => finished_count ts'
  end.

(** The future of [gather] reflects the tasks: it counts the finished
    ones, it is pending only while a task is and none has raised, it
    holds a result only when no task has raised, and an exception only
    if a task raised it. *)
Definition future_agrees (nfuts : nat) (ts : list task_state)
           (g : gather_future) : Prop :=
  nfinished g = finished_count ts /\
  match outer g with
  | None =>
      finished_count ts < nfuts /\
      forall k e, nth_error ts k <> Some (Finished (Some e))
  | Some None => forall k t, nth_error ts k = Some t -> t = Finished None
  | Some (Some e) => exists k, nth_error ts k = Some (Finished (Some e))
  end.

Definition loop_inv (p : re.Pattern) (files_urls : list json_value)
           (lp : event_loop) : Prop :=
  length (tasks lp) = length files_urls /\
  (forall k file_url, nth_error files_urls k = Some file_url ->
     exists t, nth_error (tasks lp) k = Some t /\ settled p file_url t) /\
  future_agrees (length files_urls) (tasks lp) (future lp) /\
  requested lp = gets files_urls.

(** What the scan resolves to when a task is the first to raise [e]. *)
Definition resolution (e : exn) : result bool :=
  match e with
  | PatternFound => Ok true
  | _ => Raise e
  end.
End Notions.

(** ** The scenarios of the test suite, as worlds *)

Module scenarios.
Import tests.

Definition compiled (pat : string) : PyRe.Pattern :=
  match PyRe.compile pat re.S with
  | inr p => p
  | inl _ => {| PyRe.ast := PyRe.Fail; PyRe.flags := re.S |}
  end.

Definition listing_url : string := gists_page_url TEST_USERNAME.

Definition gist_all : json_value :=
  fake_gist TEST_USERNAME (map fst TEST_GIST_FILES).

(** [test__search__single_page_found], [_not_found], [_invalid_pattern]:
    one gist of three files on one page. *)
Definition single_page (order : list nat) : world :=
  mocked (mock_gist_files_requests
            (mock_gist_request no_mocks TEST_USERNAME [gist_all] 1)
            TEST_USERNAME TEST_GIST_FILES)
         order.

(** [test__search__multiple_pages_found]: two gists on two pages. *)
Definition page1_gist_files : list (string * string) := firstn 2 TEST_GIST_FILES.
Definition page2_gist_files : list (string * string) := skipn 2 TEST_GIST_FILES.
Definition page1_gist : json_value :=
  fake_gist TEST_USERNAME (map fst page1_gist_files).
Definition page2_gist : json_value :=
  fake_gist TEST_USERNAME (map fst page2_gist_files).

Definition multiple_pages (order : list nat) : world :=
  mocked (mock_gist_files_requests
            (mock_gist_files_requests
               (mock_gist_request no_mocks TEST_USERNAME
                                  [page1_gist; page2_gist] 1)
               TEST_USERNAME page1_gist_files)
            TEST_USERNAME page2_gist_files)
         order.

(** [test__search__github_api_error_listing_user_gists] *)
Definition listing_error_payload : json_value :=
  JObject [("some", JString "error")].

Definition listing_error : world :=
  mocked (mock_page_error no_mocks TEST_USERNAME 1 403 listing_error_payload) [].

(** The listing fails on its second page. *)
Definition second_page_error : world :=
  mocked (mock_gist_request
            (mock_page_error no_mocks TEST_USERNAME 2 403 listing_error_payload)
            TEST_USERNAME [gist_all] 1)
         [].

(** No gist at all. *)
Definition no_gists : world :=
  mocked (mock_gist_request no_mocks TEST_USERNAME [] 1) [].

(** [test__search__github_api_error_fetching_gist_files], with a second
    gist behind the failing one, and a sibling file that matches: the
    second file of the first gist is answered with 403. *)
Definition fetch_error_payload : json_value :=
  JObject [("error", JString "Rate limit exceeded")].

Definition file_url (files : list (string * string)) (filename : string)
  : string :=
  raw_url_of TEST_USERNAME (fake_gist_id TEST_USERNAME (map fst files)) filename.

Definition fetch_error (order : list nat) : world :=
  mocked (mock_gist_files_requests
            (mock_gist_files_requests
               (mock_file_error
                  (mock_gist_request no_mocks TEST_USERNAME
                                     [page1_gist; page2_gist] 1)
                  (file_url page1_gist_files "file2.txt") 403
                  fetch_error_payload)
               TEST_USERNAME page1_gist_files)
            TEST_USERNAME page2_gist_files)
         order.

Definition gist_url (files : list (string * string)) : json_value :=
  JString ("https://api.github.com/gists/"
             ++ fake_gist_id TEST_USERNAME (map fst files))%string.

Definition listed (count : nat) : state :=
  sent empty_state (page_requests listing_url 1 count).

Definition request (pat : string) : post_data :=
  {| username := TEST_USERNAME; pattern := pat |}.
End scenarios.

(** ** Notions used in the further statements *)

Fixpoint fetching_count (ts : list task_state) : nat :=
  match ts with
  | [] => 0
  | Fetching _ :: ts' => S (fetching_count ts')
  | _ :: ts' => fetching_count ts'
  end.

(** The event loop of a scan after the answers for the tasks [order] have
    come, one after the other. *)
Definition after_arrivals {RE : re.Impl} (w : world) (p : re.Pattern)
           (files_urls : list json_value) (order : list nat) : event_loop :=
  fold_left (fun lp i => resume w p (length files_urls) i lp) order
            (start files_urls).

(** The record [exception_handler] writes for a [GitHubError]. *)
Definition github_log_record (code : Z) (payload : json_value) : log_record :=
  {| log_msg := "GitHub API error: %s (%s)";
     log_payload := payload;
     log_status := code |}.

(** The matches a search is to give: the URLs of the gists that match. *)
Fixpoint expected_matches {RE : re.Impl} (w : world) (p : re.Pattern)
         (gists urls : list json_value) : list json_value :=
  match gists, urls with
  | gist :: gists', url :: urls' =>
      if gist_matches w p gist then url :: expected_matches w p gists' urls'
      else expected_matches w p gists' urls'
  | _, _ => []
  end.

Module more_scenarios.
Import tests.

(** A listing without end: every page holds one more gist. *)
Definition endless : world :=
  {| requests_get := fun _ _ => Some (page_response [fake_gist TEST_USERNAME []]);
     session_get := fun _ => None;
     completion_order := fun _ => [] |}.

(** A listing that ends with an empty object instead of an empty array. *)
Definition ends_with_object : world :=
  mocked (mock_page_error
            (mock_page_error no_mocks TEST_USERNAME 1 200
                             (JArray [scenarios.gist_all]))
            TEST_USERNAME 2 200 (JObject []))
         [].

(** Three gists served two at a time. *)
Definition three_gists : list json_value :=
  [scenarios.gist_all; scenarios.page1_gist; scenarios.page2_gist].

Definition paged_by_two : world :=
  mocked (mock_gist_request no_mocks TEST_USERNAME three_gists 2) [].

(** A gist whose second file has no [raw_url]. *)
Definition broken_gist : json_value :=
  JObject [("url", JString "https://api.github.com/gists/0");
           ("files",
            JObject [("a.txt", JObject [("raw_url", JString "https://gist.githubusercontent.com/a.txt")]);
                     ("b.txt", JObject [("filename", JString "b.txt")])])].
End more_scenarios.

(** * Properties *)

Unset Implicit Arguments.

(** ** The lister *)

Section ListerFacts.
Variable w : world.

Lemma loop_error fuel url page gists st response :
  requests_get w url page = Some response ->
  requests.status_code response <> OK ->
  gists_for_user_loop w (S fuel) url page gists st =
  Some (Raise (GitHubError (requests.status_code response)
                           (requests.json response)),
        sent st [RequestsGet url page]).
Proof.
  intros Hget Hcode. cbn. unfold requests_get_page, bind, send.
  rewrite Hget. cbn.
  destruct (Z.eqb_spec (requests.status_code response) OK); [contradiction|].
  reflexivity.
Qed.

Lemma loop_last fuel url page gists st response :
  requests_get w url page = Some response ->
  requests.status_code response = OK ->
  truthy (requests.json response) = false ->
  gists_for_user_loop w (S fuel) url page gists st =
  Some (Ok gists, sent st [RequestsGet url page]).
Proof.
  intros Hget Hcode Hdata. cbn. unfold requests_get_page, bind, send.
  rewrite Hget. cbn. rewrite Hcode, Hdata. reflexivity.
Qed.

Lemma loop_more fuel url page gists st response items :
  requests_get w url page = Some response ->
  requests.status_code response = OK ->
  requests.json response = JArray items ->
  items <> [] ->
  gists_for_user_loop w (S fuel) url page gists st =
  gists_for_user_loop w fuel url (page + 1) (gists ++ items)
                      (sent st [RequestsGet url page]).
Proof.
  intros Hget Hcode Hdata Hne. cbn. unfold requests_get_page, bind, send.
  rewrite Hget. cbn. rewrite Hcode, Hdata. cbn.
  destruct items; [contradiction|]. reflexivity.
Qed.

Lemma sent_sent st a b : sent (sent st a) b = sent st (a ++ b).
Proof. unfold sent. cbn. now rewrite app_assoc. Qed.

Lemma sent_nil st : sent st [] = st.
Proof. destruct st. unfold sent. cbn. now rewrite app_nil_r. Qed.

(** The lister only ever sends page requests, for consecutive pages. *)
Lemma loop_trace fuel url : forall page gists st r st',
  gists_for_user_loop w fuel url page gists st = Some (r, st') ->
  exists count, 0 < count /\ st' = sent st (page_requests url page count).
Proof.
  induction fuel as [|fuel IH]; intros page gists st r st' H; [discriminate|].
  cbn in H. unfold requests_get_page, bind, send in H.
  destruct (requests_get w url page) as [response|]; cbn in H.
  - destruct (negb (requests.status_code response =? OK)%Z).
    + inversion H. exists 1. split; [lia|reflexivity].
    + destruct (negb (truthy (requests.json response))).
      * inversion H. exists 1. split; [lia|reflexivity].
      * unfold lift in H.
        destruct (list_iadd gists (requests.json response)) as [gists'|e].
        -- apply IH in H. destruct H as (count & Hc & ->).
           exists (S count). split; [lia|].
           change (sent (sent st [RequestsGet url page])
                        (page_requests url (page + 1) count)
                   = sent st (page_requests url page (S count))).
           rewrite sent_sent. unfold page_requests. cbn.
           now rewrite Nat.add_1_r.
        -- inversion H. exists 1. split; [lia|reflexivity].
  - inversion H. exists 1. split; [lia|reflexivity].
Qed.
End ListerFacts.

Section Pagination.
Variable w : world.

Lemma ceil_div_covers n p : 0 < p -> n <= ceil_div n p * p.
Proof.
  intros Hp. unfold ceil_div.
  pose proof (Nat.div_mod_eq (n + p - 1) p) as E.
  pose proof (Nat.mod_upper_bound (n + p - 1) p ltac:(lia)) as B.
  nia.
Qed.

Lemma ceil_div_below n p k : 0 < p -> k < ceil_div n p -> k * p < n.
Proof.
  intros Hp. unfold ceil_div. intros Hk.
  pose proof (Nat.div_mod_eq (n + p - 1) p) as E.
  nia.
Qed.

Lemma firstn_then_page {A} (a b : nat) : forall l : list A,
  firstn a l ++ firstn b (skipn a l) = firstn (a + b) l.
Proof.
  induction a as [|a IH]; intros l; [reflexivity|].
  destruct l as [|x l]; cbn.
  - now rewrite firstn_nil.
  - now rewrite IH.
Qed.

Lemma loop_pages url per_page all :
  0 < per_page ->
  serves w url per_page all ->
  forall d k fuel st,
    k + d = ceil_div (length all) per_page ->
    d + 1 <= fuel ->
    gists_for_user_loop w fuel url (k + 1) (firstn (k * per_page) all) st =
    Some (Ok all, sent st (page_requests url (k + 1) (d + 1))).
Proof.
  intros Hp Hw. induction d as [|d IH]; intros k fuel st Hk Hfuel;
    (destruct fuel as [|fuel]; [lia|]);
    pose proof (Hw (k + 1) ltac:(lia)) as Hget;
    unfold page_slice in Hget; rewrite Nat.add_sub in Hget.
  - pose proof (ceil_div_covers (length all) per_page Hp) as Hall.
    rewrite skipn_all2 in Hget by nia. rewrite firstn_nil in Hget.
    rewrite (@loop_last w fuel _ _ _ st _ Hget eq_refl eq_refl).
    rewrite firstn_all2 by nia. reflexivity.
  - assert (Hlt : k * per_page < length all)
      by (apply ceil_div_below; lia).
    rewrite (@loop_more w fuel _ _ _ st _ _ Hget eq_refl eq_refl).
    + rewrite firstn_then_page.
      replace (k * per_page + per_page) with ((k + 1) * per_page) by lia.
      rewrite IH by lia. rewrite sent_sent. unfold page_requests.
      replace (S d + 1) with (S (d + 1)) by lia. cbn.
      now rewrite (Nat.add_1_r (k + 1)).
    + intros E. apply (f_equal (@length _)) in E.
      rewrite length_firstn, length_skipn in E. cbn in E. lia.
Qed.

Lemma loop_error_after url code payload : forall pages k gists fuel st,
  (forall i items, nth_error pages i = Some items ->
     items <> [] /\ requests_get w url (k + i) = Some (page_response items)) ->
  requests_get w url (k + length pages) =
    Some {| requests.status_code := code; requests.json := payload |} ->
  code <> OK ->
  length pages + 1 <= fuel ->
  gists_for_user_loop w fuel url k gists st =
  Some (Raise (GitHubError code payload),
        sent st (page_requests url k (length pages + 1))).
Proof.
  induction pages as [|items pages IH]; intros k gists fuel st Hok Herr Hcode Hfuel;
    (destruct fuel as [|fuel]; [cbn in Hfuel; lia|]).
  - cbn [length] in Herr. rewrite Nat.add_0_r in Herr.
    now rewrite (@loop_error w fuel _ _ gists st _ Herr Hcode).
  - destruct (Hok 0 items eq_refl) as [Hne Hget].
    rewrite Nat.add_0_r in Hget.
    rewrite (@loop_more w fuel _ _ gists st _ _ Hget eq_refl eq_refl Hne).
    rewrite (IH (k + 1) _ fuel).
    + rewrite sent_sent. unfold page_requests. cbn.
      now rewrite (Nat.add_1_r k).
    + intros i its Hi. specialize (Hok (S i) its Hi).
      now replace (k + 1 + i) with (k + S i) by lia.
    + cbn [length] in Herr.
      now replace (k + 1 + length pages) with (k + S (length pages)) by lia.
    + exact Hcode.
    + cbn in Hfuel. lia.
Qed.
End Pagination.

(** C4. When the listing of a user holds the records [all], served
    [per_page] at a time with success, the lister sends exactly
    [ceil(N / per_page) + 1] page requests, for pages 1, 2, ... in turn
    (the last one answered by an empty page), and returns [all], the pages
    concatenated in order. *)
Theorem lister_pagination (w : world) (username : string) (per_page : nat)
        (all : list json_value) (fuel : nat) (st : state) :
  0 < per_page ->
  serves w (gists_url_for username) per_page all ->
  ceil_div (length all) per_page + 1 <= fuel ->
  gists_for_user w fuel username st =
    Some (Ok all,
          sent st (page_requests (gists_url_for username) 1
                                 (ceil_div (length all) per_page + 1)))
  /\ length (page_requests (gists_url_for username) 1
                           (ceil_div (length all) per_page + 1))
     = ceil_div (length all) per_page + 1.
Proof.
  intros Hp Hw Hfuel. split.
  - unfold gists_for_user.
    exact (loop_pages w _ per_page all Hp Hw (ceil_div (length all) per_page) 0 fuel st eq_refl Hfuel).
  - unfold page_requests. now rewrite length_map, length_seq.
Qed.

(** C8. When the pages before page [k] were answered with success and
    records, and page [k] is answered with a status other than 200, the
    lister raises [GitHubError] with the status and the parsed body of that
    answer, right after that request: the records of the earlier pages are
    not returned and no further page is requested. *)
Theorem lister_error_page (w : world) (username : string)
        (pages : list (list json_value)) (code : Z) (payload : json_value)
        (fuel : nat) (st : state) :
  (forall i items, nth_error pages i = Some items ->
     items <> [] /\
     requests_get w (gists_url_for username) (1 + i) = Some (page_response items)) ->
  requests_get w (gists_url_for username) (1 + length pages) =
    Some {| requests.status_code := code; requests.json := payload |} ->
  code <> OK ->
  length pages + 1 <= fuel ->
  gists_for_user w fuel username st =
    Some (Raise (GitHubError code payload),
          sent st (page_requests (gists_url_for username) 1 (length pages + 1))).
Proof.
  intros Hok Herr Hcode Hfuel. unfold gists_for_user.
  now apply loop_error_after.
Qed.

(** ** The scan *)

Section ListFacts.
Context {A : Type}.

Lemma set_nth_length (i : nat) (x : A) : forall l,
  length (set_nth i x l) = length l.
Proof.
  revert i. intros i l. revert i.
  induction l as [|y l IH]; intros [|i]; cbn; auto.
Qed.

Lemma nth_error_set_nth_eq (x : A) : forall l i y,
  nth_error l i = Some y -> nth_error (set_nth i x l) i = Some x.
Proof.
  induction l as [|z l IH]; intros [|i] y H; cbn in *; try discriminate; eauto.
Qed.

Lemma nth_error_set_nth_neq (x : A) : forall l i j,
  i <> j -> nth_error (set_nth i x l) j = nth_error l j.
Proof.
  induction l as [|z l IH]; intros [|i] [|j] H; cbn; auto; try congruence.
Qed.

Lemma nth_error_set_nth (x : A) l i j t :
  nth_error (set_nth i x l) j = Some t ->
  (i = j /\ t = x) \/ (i <> j /\ nth_error l j = Some t).
Proof.
  intros H. destruct (Nat.eq_dec i j) as [->|Hne].
  - left. split; [reflexivity|].
    destruct (nth_error l j) as [y|] eqn:E.
    + rewrite (nth_error_set_nth_eq x _ _ _ E) in H. congruence.
    + apply nth_error_None in E.
      assert (nth_error (set_nth j x l) j = None)
        by (apply nth_error_None; now rewrite set_nth_length).
      congruence.
  - right. split; [assumption|]. now rewrite nth_error_set_nth_neq in H.
Qed.
End ListFacts.

Section ScanFacts.
Context {RE : re.Impl}.
Variable w : world.
Variable p : re.Pattern.

Lemma finished_count_le ts : finished_count ts <= length ts.
Proof. induction ts as [|[] ts IH]; cbn; lia. Qed.

Lemma finished_count_full : forall ts,
  finished_count ts = length ts ->
  forall k t, nth_error ts k = Some t -> exists exc, t = Finished exc.
Proof.
  induction ts as [|t0 ts IH]; intros Hc k t Hk.
  - destruct k; discriminate.
  - pose proof (finished_count_le ts) as Hle.
    destruct t0; cbn in Hc; try lia.
    destruct k; cbn in Hk.
    + inversion Hk. eauto.
    + apply (IH ltac:(lia) k t Hk).
Qed.

Lemma finished_count_set_nth x : forall ts i u,
  nth_error ts i = Some (Fetching u) ->
  finished_count (set_nth i (Finished x) ts) = S (finished_count ts).
Proof.
  induction ts as [|t ts IH]; intros [|i] u H; cbn in *; try discriminate.
  - now inversion H.
  - destruct t; cbn; eauto.
Qed.

Lemma enter_idle : forall ts sem,
  (forall k u, nth_error ts k <> Some (Blocked u)) ->
  enter sem ts = (ts, sem, [], []).
Proof.
  induction ts as [|t ts IH]; intros sem H; [reflexivity|].
  assert (Hts : forall k u, nth_error ts k <> Some (Blocked u))
    by (intros k u; exact (H (S k) u)).
  destruct t; cbn.
  - exfalso. exact (H 0 file_url eq_refl).
  - now rewrite (IH sem Hts).
  - now rewrite (IH sem Hts).
Qed.

Lemma enter_start : forall files_urls sem,
  length files_urls <= sem ->
  exists sem',
    enter sem (map Blocked files_urls) =
    (map first_state files_urls, sem', gets files_urls, immediate files_urls).
Proof.
  induction files_urls as [|url urls IH]; intros sem Hsem.
  - exists sem. reflexivity.
  - cbn in Hsem. destruct sem as [|sem]; [lia|].
    destruct url; cbn.
    1, 2, 3, 5, 6:
      destruct (IH (S sem) ltac:(lia)) as [sem' E]; rewrite E; eauto.
    destruct (IH sem ltac:(lia)) as [sem' E]. rewrite E. eauto.
Qed.

Lemma callbacks_after_done nfuts : forall cs g r,
  outer g = Some r ->
  outer (fold_left (_done_callback nfuts) cs g) = Some r /\
  nfinished (fold_left (_done_callback nfuts) cs g) = nfinished g + length cs.
Proof.
  induction cs as [|c cs IH]; intros g r Hg; cbn.
  - split; [assumption|lia].
  - assert (Hout : outer (_done_callback nfuts g c) = Some r)
      by (unfold _done_callback; rewrite Hg; cbn; auto).
    destruct (IH _ r Hout) as [H1 H2]. split; [assumption|].
    rewrite H2. unfold _done_callback. rewrite Hg. cbn. lia.
Qed.

Lemma immediate_count files_urls :
  finished_count (map first_state files_urls) = length (immediate files_urls).
Proof.
  induction files_urls as [|[] urls IH]; cbn; auto.
Qed.

Lemma immediate_none files_urls :
  immediate files_urls = [] ->
  forall k t, nth_error (map first_state files_urls) k = Some t ->
              exists u, t = Fetching u.
Proof.
  induction files_urls as [|url urls IH]; intros Him k t Hk.
  - destruct k; discriminate.
  - destruct url; cbn in Him; try discriminate.
    destruct k; cbn in Hk.
    + inversion Hk. eauto.
    + eauto.
Qed.

Lemma immediate_some files_urls :
  immediate files_urls <> [] ->
  exists k, nth_error (map first_state files_urls) k
            = Some (Finished (Some TypeError)).
Proof.
  induction files_urls as [|url urls IH]; intros Him; [contradiction|].
  destruct url; cbn in Him;
    try (exists 0; reflexivity).
  destruct (IH Him) as [k Hk]. exists (S k). exact Hk.
Qed.

Lemma immediate_all_type_error files_urls :
  forall c, In c (immediate files_urls) -> c = Some TypeError.
Proof.
  induction files_urls as [|[] urls IH]; cbn; intros c Hc;
    try contradiction; try (destruct Hc as [<-|Hc]); auto.
Qed.

Lemma first_state_settled file_url :
  settled w p file_url (first_state file_url).
Proof.
  destruct file_url; cbn; try (left; reflexivity).
  right. eauto.
Qed.
End ScanFacts.

Section ScanInvariant.
Context {RE : re.Impl}.
Variable w : world.
Variable p : re.Pattern.
Variable files_urls : list json_value.

Lemma start_inv : loop_inv w p files_urls (start files_urls).
Proof.
  unfold start.
  destruct (enter_start files_urls _ (le_n (length files_urls))) as [sem' E].
  rewrite E. unfold loop_inv. cbn [tasks future requested].
  split; [now rewrite length_map|]. split; [|split; [|reflexivity]].
  - intros k url Hk. exists (first_state url). split.
    + now rewrite nth_error_map, Hk.
    + apply first_state_settled.
  - unfold future_agrees. rewrite immediate_count.
    destruct (immediate files_urls) as [|c cs] eqn:Him.
    + cbn. split; [reflexivity|].
      destruct files_urls as [|url urls] eqn:Hurls; cbn.
      * intros [|k] t Hk; discriminate.
      * split; [lia|]. intros k e Hk.
        destruct (immediate_none (url :: urls) Him _ _ Hk) as [u Hu].
        discriminate.
    + assert (Hc : c = Some TypeError)
        by (apply (immediate_all_type_error files_urls); rewrite Him; now left).
      subst c.
      assert (Hne : immediate files_urls <> []) by (rewrite Him; discriminate).
      destruct files_urls as [|url urls] eqn:Hurls; [discriminate|].
      cbn [fold_left]. unfold gather, _done_callback at 2. cbn.
      destruct (callbacks_after_done (S (length urls)) cs
                  {| nfinished := 1; outer := Some (Some TypeError) |}
                  _ eq_refl) as [Hout Hfin].
      unfold _done_callback in *. rewrite Hout, Hfin. cbn.
      split; [reflexivity|]. apply (immediate_some (url :: urls) Hne).
Qed.

Lemma inv_no_blocked lp :
  loop_inv w p files_urls lp ->
  forall k u, nth_error (tasks lp) k <> Some (Blocked u).
Proof.
  intros (Hlen & Hset & _) k u Hk.
  assert (Hlt : k < length files_urls).
  { rewrite <- Hlen. apply nth_error_Some. congruence. }
  destruct (nth_error files_urls k) as [url|] eqn:Hurl.
  - destruct (Hset k url Hurl) as (t & Ht & [Hs|(u' & _ & Hs)]);
      rewrite Hk in Ht; inversion Ht; subst; discriminate.
  - apply nth_error_None in Hurl. lia.
Qed.

Lemma inv_fetching_url lp i u :
  loop_inv w p files_urls lp ->
  nth_error (tasks lp) i = Some (Fetching u) ->
  nth_error files_urls i = Some (JString u).
Proof.
  intros (Hlen & Hset & _) Hi.
  assert (Hlt : i < length files_urls).
  { rewrite <- Hlen. apply nth_error_Some. congruence. }
  destruct (nth_error files_urls i) as [url|] eqn:Hurl.
  - destruct (Hset i url Hurl) as (t & Ht & [Hs|(u' & -> & Hs)]);
      rewrite Hi in Ht; inversion Ht; subst; [discriminate|].
    now inversion H0.
  - apply nth_error_None in Hurl. lia.
Qed.

Lemma resume_idle i lp :
  (forall u, nth_error (tasks lp) i <> Some (Fetching u)) ->
  resume w p (length files_urls) i lp = lp.
Proof.
  intros H. unfold resume.
  destruct (nth_error (tasks lp) i) as [[]|]; try reflexivity.
  exfalso. eapply H. reflexivity.
Qed.

Lemma resume_fetching i lp u :
  loop_inv w p files_urls lp ->
  nth_error (tasks lp) i = Some (Fetching u) ->
  resume w p (length files_urls) i lp =
  {| tasks := set_nth i (Finished (fate w p (JString u))) (tasks lp);
     semaphore := S (semaphore lp);
     future := _done_callback (length files_urls) (future lp) (fate w p (JString u));
     requested := requested lp |}.
Proof.
  intros Hinv Hi. unfold resume. rewrite Hi.
  rewrite enter_idle.
  - cbn [fold_left fate]. now rewrite app_nil_r.
  - intros k u' Hk. apply nth_error_set_nth in Hk.
    destruct Hk as [[_ Hk]|[_ Hk]]; [discriminate|].
    revert Hk. now apply inv_no_blocked.
Qed.

Lemma resume_inv i lp :
  loop_inv w p files_urls lp ->
  loop_inv w p files_urls (resume w p (length files_urls) i lp).
Proof.
  intros Hinv.
  destruct (nth_error (tasks lp) i) as [t|] eqn:Hi.
  2: { rewrite resume_idle; [assumption|]. intros u. congruence. }
  destruct t as [b|u|exc].
  1, 3: rewrite resume_idle; [assumption|intros u'; congruence].
  rewrite (resume_fetching i lp u Hinv Hi).
  pose proof (inv_fetching_url lp i u Hinv Hi) as Hurl.
  destruct Hinv as (Hlen & Hset & (Hfin & Hout) & Hreq).
  unfold loop_inv. cbn [tasks future requested].
  split; [now rewrite set_nth_length|]. split; [|split; [|assumption]].
  - intros k url Hk. destruct (Nat.eq_dec i k) as [<-|Hne].
    + exists (Finished (fate w p (JString u))). split.
      * apply (nth_error_set_nth_eq _ _ _ _ Hi).
      * left. congruence.
    + rewrite nth_error_set_nth_neq by assumption. auto.
  - set (exc := fate w p (JString u)). set (ts' := set_nth i (Finished exc) (tasks lp)).
    assert (Hcount : finished_count ts' = S (finished_count (tasks lp)))
      by (apply (finished_count_set_nth _ _ _ _ Hi)).
    assert (Hlen' : length ts' = (length files_urls))
      by (unfold ts'; rewrite set_nth_length; exact Hlen).
    unfold future_agrees, _done_callback.
    destruct (outer (future lp)) as [[e|]|] eqn:Hg; cbn [nfinished outer].
    + split; [congruence|].
      destruct Hout as [k Hk]. exists k. unfold ts'.
      rewrite nth_error_set_nth_neq; [assumption|]. congruence.
    + specialize (Hout i _ Hi). discriminate.
    + destruct Hout as [Hlt Hquiet].
      destruct exc as [e|] eqn:Hexc; cbn [nfinished outer].
      * split; [congruence|]. exists i. apply (nth_error_set_nth_eq _ _ _ _ Hi).
      * destruct (Nat.eqb_spec (S (nfinished (future lp))) (length files_urls)) as [Heq|Hneq];
          cbn [nfinished outer]; (split; [congruence|]).
        -- intros k t Hk.
           assert (Hfull : finished_count ts' = length ts') by congruence.
           destruct (finished_count_full _ Hfull _ _ Hk) as [[e|] ->];
             [|reflexivity].
           apply nth_error_set_nth in Hk.
           destruct Hk as [[_ Hk]|[_ Hk]]; [discriminate|].
           exfalso. exact (Hquiet _ _ Hk).
        -- split.
           ++ pose proof (finished_count_le ts'). lia.
           ++ intros k e Hk. apply nth_error_set_nth in Hk.
              destruct Hk as [[_ Hk]|[_ Hk]]; [discriminate|].
              exact (Hquiet _ _ Hk).
Qed.

Lemma run_inv : forall order lp lp',
  loop_inv w p files_urls lp ->
  run_until_complete w p (length files_urls) order lp = Some lp' ->
  loop_inv w p files_urls lp' /\ outer (future lp') <> None.
Proof.
  induction order as [|i order IH]; intros lp lp' Hinv Hrun; cbn in Hrun;
    destruct (outer (future lp)) eqn:Hg; try discriminate.
  1, 2: inversion Hrun; subst; split; [assumption|congruence].
  apply (IH _ _ (resume_inv i lp Hinv) Hrun).
Qed.
End ScanInvariant.

Section ScanRuns.
Context {RE : re.Impl}.
Variable w : world.
Variable p : re.Pattern.
Variable files_urls : list json_value.

Lemma inv_task_fate lp k t :
  loop_inv w p files_urls lp ->
  nth_error (tasks lp) k = Some t ->
  exists url, nth_error files_urls k = Some url /\ settled w p url t.
Proof.
  intros (Hlen & Hset & _) Hk.
  assert (Hlt : k < length files_urls).
  { rewrite <- Hlen. apply nth_error_Some. congruence. }
  destruct (nth_error files_urls k) as [url|] eqn:Hurl.
  - destruct (Hset k url Hurl) as (t' & Ht & Hs).
    exists url. split; [reflexivity|]. congruence.
  - apply nth_error_None in Hurl. lia.
Qed.

Lemma inv_raised lp k e :
  loop_inv w p files_urls lp ->
  nth_error (tasks lp) k = Some (Finished (Some e)) ->
  exists url, In url files_urls /\ fate w p url = Some e.
Proof.
  intros Hinv Hk.
  destruct (inv_task_fate lp k _ Hinv Hk) as (url & Hurl & [Hs|(u & _ & Hs)]);
    [|discriminate].
  exists url. split; [eapply nth_error_In; eassumption|]. congruence.
Qed.

Lemma inv_returned lp :
  loop_inv w p files_urls lp ->
  outer (future lp) = Some None ->
  forall url, In url files_urls -> fate w p url = None.
Proof.
  intros Hinv Hg url Hin.
  destruct Hinv as (Hlen & Hset & (_ & Hout) & _). rewrite Hg in Hout.
  destruct (In_nth_error _ _ Hin) as [k Hk].
  destruct (Hset k url Hk) as (t & Ht & Hs).
  specialize (Hout k t Ht). subst t.
  destruct Hs as [Hs|(u & _ & Hs)]; congruence.
Qed.

Lemma run_done order lp r :
  outer (future lp) = Some r ->
  run_until_complete w p (length files_urls) order lp = Some lp.
Proof. intros H. destruct order; cbn; now rewrite H. Qed.

Lemma finished_count_all : forall ts,
  (forall k t, nth_error ts k = Some t -> exists exc, t = Finished exc) ->
  finished_count ts = length ts.
Proof.
  induction ts as [|t ts IH]; intros H; [reflexivity|].
  destruct (H 0 t eq_refl) as [exc ->]. cbn. f_equal.
  apply IH. intros k t' Hk. exact (H (S k) t' Hk).
Qed.

(** The first task to raise decides, whatever arrives after it. *)
Lemma run_first_raise i u e post : forall pre lp,
  loop_inv w p files_urls lp ->
  outer (future lp) = None ->
  nth_error (tasks lp) i = Some (Fetching u) ->
  fate w p (JString u) = Some e ->
  (forall j url, In j pre -> nth_error files_urls j = Some url ->
                 fate w p url = None) ->
  exists lp',
    run_until_complete w p (length files_urls) (pre ++ i :: post) lp = Some lp' /\
    outer (future lp') = Some (Some e) /\
    requested lp' = gets files_urls.
Proof.
  induction pre as [|j pre IH]; intros lp Hinv Hg Hi He Hpre; cbn; rewrite Hg.
  - exists (resume w p (length files_urls) i lp).
    assert (Hout : outer (future (resume w p (length files_urls) i lp)) = Some (Some e)).
    { rewrite (resume_fetching w p files_urls i lp u Hinv Hi).
      cbn [future]. unfold _done_callback. now rewrite Hg, He. }
    split; [exact (run_done post _ _ Hout)|]. split; [assumption|].
    apply (resume_inv w p files_urls i lp Hinv).
  - apply IH.
    + apply (resume_inv w p files_urls j lp Hinv).
    + destruct (nth_error (tasks lp) j) as [[b|uj|exc]|] eqn:Hj.
      1, 3, 4: rewrite resume_idle;
        [assumption|intros u'; congruence].
      pose proof (resume_inv w p files_urls j lp Hinv) as Hinv'.
      assert (Hne : j <> i).
      { intros ->. rewrite Hi in Hj. inversion Hj; subst uj.
        pose proof (inv_fetching_url w p files_urls lp i u Hinv Hi) as Hurl.
        rewrite (Hpre i _ (or_introl eq_refl) Hurl) in He. discriminate. }
      assert (Hnone : fate w p (JString uj) = None).
      { apply (Hpre j); [now left|].
        apply (inv_fetching_url w p files_urls lp j uj Hinv Hj). }
      rewrite (resume_fetching w p files_urls j lp uj Hinv Hj) in Hinv' |- *.
      cbn [future]. unfold _done_callback. rewrite Hg, Hnone.
      destruct (S (nfinished (future lp)) =? length files_urls)%nat eqn:Hfull;
        [|reflexivity].
      exfalso. destruct Hinv' as (_ & _ & (_ & Hout) & _).
      cbn [future tasks] in Hout. unfold _done_callback in Hout.
      rewrite Hg, Hnone, Hfull in Hout. cbn [outer] in Hout.
      specialize (Hout i (Fetching u)).
      rewrite nth_error_set_nth_neq in Hout by assumption.
      specialize (Hout Hi). discriminate.
    + destruct (nth_error (tasks lp) j) as [[b|uj|exc]|] eqn:Hj.
      1, 3, 4: rewrite resume_idle;
        [assumption|intros u'; congruence].
      assert (Hne : j <> i).
      { intros ->. rewrite Hi in Hj. inversion Hj; subst uj.
        pose proof (inv_fetching_url w p files_urls lp i u Hinv Hi) as Hurl.
        rewrite (Hpre i _ (or_introl eq_refl) Hurl) in He. discriminate. }
      rewrite (resume_fetching w p files_urls j lp uj Hinv Hj).
      cbn [tasks]. now rewrite nth_error_set_nth_neq.
    + assumption.
    + intros k url Hk. apply Hpre. now right.
Qed.

(** When no task raises, the scan ends once every answer has come. *)
Lemma run_all_quiet :
  (forall url, In url files_urls -> fate w p url = None) ->
  forall order lp,
    loop_inv w p files_urls lp ->
    (forall i u, nth_error (tasks lp) i = Some (Fetching u) -> In i order) ->
    exists lp',
      run_until_complete w p (length files_urls) order lp = Some lp' /\
      outer (future lp') = Some None /\
      requested lp' = gets files_urls.
Proof.
  intros Hquiet. induction order as [|j order IH]; intros lp Hinv Hpending.
  - destruct (outer (future lp)) as [[e|]|] eqn:Hg.
    + exfalso. pose proof Hinv as (Hlen & Hset & (Hfin & Hout) & Hreq).
      rewrite Hg in Hout. destruct Hout as [k Hk].
      destruct (inv_raised lp k e Hinv Hk) as (url & Hin & Hf).
      rewrite (Hquiet url Hin) in Hf. discriminate.
    + exists lp. split; [exact (run_done [] lp _ Hg)|]. split; [assumption|].
      apply Hinv.
    + exfalso. pose proof Hinv as (Hlen & Hset & (Hfin & Hout) & Hreq).
      rewrite Hg in Hout. destruct Hout as [Hlt _].
      rewrite finished_count_all in Hlt; [lia|].
      intros k t Hk.
      destruct (inv_task_fate lp k t Hinv Hk) as (url & _ & [Hs|(u & _ & Hs)]);
        [eauto|].
      subst t. destruct (Hpending k u Hk).
  - destruct (outer (future lp)) as [[e|]|] eqn:Hg.
    + exfalso. pose proof Hinv as (Hlen & Hset & (Hfin & Hout) & Hreq).
      rewrite Hg in Hout. destruct Hout as [k Hk].
      destruct (inv_raised lp k e Hinv Hk) as (url & Hin & Hf).
      rewrite (Hquiet url Hin) in Hf. discriminate.
    + exists lp. split; [exact (run_done _ lp _ Hg)|]. split; [assumption|].
      apply Hinv.
    + cbn. rewrite Hg. apply IH.
      * apply (resume_inv w p files_urls j lp Hinv).
      * intros i u Hi.
        destruct (nth_error (tasks lp) j) as [[b|uj|exc]|] eqn:Hj.
        1, 3, 4: rewrite resume_idle in Hi
          by (intros u'; congruence);
          destruct (Hpending i u Hi) as [<-|Hin]; [congruence|assumption].
        rewrite (resume_fetching w p files_urls j lp uj Hinv Hj) in Hi.
        cbn [tasks] in Hi. apply nth_error_set_nth in Hi.
        destruct Hi as [[_ Hi]|[Hne Hi]]; [discriminate|].
        destruct (Hpending i u Hi) as [<-|Hin]; [contradiction|assumption].
Qed.
End ScanRuns.

Section ScanResults.
Context {RE : re.Impl}.
Variable w : world.

(** Whatever a scan ends with was decided by one of its files, and it
    sends one GET per file, whatever the result. *)
Lemma scan_inv gist p st r st' :
  gist_contains_pattern w gist p st = Some (r, st') ->
  match files_urls_of gist with
  | Raise e => r = Raise e /\ st' = st
  | Ok files_urls =>
      st' = sent st (gets files_urls) /\
      match r with
      | Ok true =>
          exists url, In url files_urls /\ fate w p url = Some PatternFound
      | Ok false => forall url, In url files_urls -> fate w p url = None
      | Raise e =>
          e <> PatternFound /\
          exists url, In url files_urls /\ fate w p url = Some e
      end
  end.
Proof.
  unfold gist_contains_pattern, bind, lift.
  destruct (files_urls_of gist) as [files_urls|e0];
    [|intros H; inversion H; auto].
  intros H.
  destruct (run_until_complete w p (length files_urls)
              (completion_order w (net st ++ requested (start files_urls)))
              (start files_urls)) as [lp'|] eqn:Hrun; [|discriminate].
  destruct (run_inv w p files_urls _ _ _ (start_inv w p files_urls) Hrun)
    as [Hinv _].
  pose proof Hinv as (_ & _ & (_ & Hout) & Hreq).
  rewrite Hreq in H. unfold sent.
  destruct (outer (future lp')) as [[e|]|] eqn:Hg; [| |discriminate].
  - destruct Hout as [k Hk].
    pose proof (inv_raised w p files_urls lp' k e Hinv Hk) as Hurl.
    destruct e; inversion H; subst; split; auto; split; auto; discriminate.
  - inversion H; subst. split; [reflexivity|].
    apply (inv_returned w p files_urls lp' Hinv Hg).
Qed.

Lemma fate_found p url :
  fate w p url = Some PatternFound <-> file_matches w p url = true.
Proof.
  unfold fate, file_matches, check_file_contains_pattern.
  destruct url; try (split; discriminate).
  destruct (session_get w s) as [response|]; [|split; discriminate].
  destruct (aiohttp.status response =? OK)%Z; cbn; [|split; discriminate].
  destruct (re.Pattern_match p (aiohttp.text response));
    split; congruence.
Qed.

Lemma fate_none p url : fate w p url = None -> file_matches w p url = false.
Proof.
  intros H. destruct (file_matches w p url) eqn:E; [|reflexivity].
  apply fate_found in E. congruence.
Qed.

Lemma files_urls_of_no_files gist :
  getitem gist "files" = Ok (JObject []) -> files_urls_of gist = Ok [].
Proof. intros H. unfold files_urls_of. now rewrite H. Qed.
End ScanResults.

Lemma gets_strings urls : gets (map JString urls) = map SessionGet urls.
Proof. induction urls as [|u us IH]; cbn; congruence. Qed.

Lemma immediate_strings urls : immediate (map JString urls) = [].
Proof. induction urls as [|u us IH]; cbn; congruence. Qed.

(** C7. The scan of a gist whose [files] mapping is empty returns [False]
    and sends no request: the state it ends in is the state it started
    from. *)
Theorem scan_of_no_files {RE : re.Impl} (w : world) (gist : json_value)
        (p : re.Pattern) (st : state) :
  getitem gist "files" = Ok (JObject []) ->
  gist_contains_pattern w gist p st = Some (Ok false, st).
Proof.
  intros H. unfold gist_contains_pattern, bind, lift.
  rewrite (files_urls_of_no_files gist H).
  change (length (@nil json_value)) with 0.
  rewrite (run_done w p [] _ (start []) None eq_refl).
  destruct st as [n l]. cbn. now rewrite app_nil_r.
Qed.

(** C2. In the scan of a gist whose files all have a URL, the first task
    to end by raising decides: when that is a match the scan returns
    [True], whatever the answers that come after it (errors included);
    when that is an error, not preceded by a match, the scan raises that
    error; and when every answer comes and no task raises, the scan
    returns [False].  In each case the scan has sent one GET per file. *)
Theorem scan_race {RE : re.Impl} (w : world) (gist : json_value)
        (p : re.Pattern) (st : state) (urls : list string) :
  files_urls_of gist = Ok (map JString urls) ->
  let order := completion_order w (net st ++ map SessionGet urls) in
  let outcome u := check_file_contains_pattern p (session_get w u) in
  (forall pre i post u e,
      order = pre ++ i :: post ->
      nth_error urls i = Some u ->
      outcome u = Some e ->
      (forall j u', In j pre -> nth_error urls j = Some u' -> outcome u' = None) ->
      gist_contains_pattern w gist p st =
        Some (resolution e, sent st (map SessionGet urls))) /\
  ((forall i u, nth_error urls i = Some u -> In i order /\ outcome u = None) ->
   gist_contains_pattern w gist p st =
     Some (Ok false, sent st (map SessionGet urls))).
Proof.
  intros Hfiles order outcome.
  pose proof (gets_strings urls) as Hgets.
  assert (Hstart : tasks (start (map JString urls)) = map Fetching urls
                   /\ outer (future (start (map JString urls)))
                      = (if (length urls =? 0)%nat then Some None else None)
                   /\ requested (start (map JString urls)) = map SessionGet urls).
  { unfold start.
    destruct (enter_start (map JString urls) _ (le_n _)) as [sem' E].
    rewrite E. cbn [tasks future requested]. rewrite Hgets.
    rewrite immediate_strings, length_map. cbn. split; [|auto].
    rewrite map_map. reflexivity. }
  destruct Hstart as (Htasks & Houter & Hreq).
  pose proof (start_inv w p (map JString urls)) as Hinv.
  unfold gist_contains_pattern, bind, lift. rewrite Hfiles, Hreq.
  fold order. split.
  - intros pre i post u e Horder Hi He Hpre.
    assert (Hpos : (length urls =? 0)%nat = false).
    { apply Nat.eqb_neq. intros Hz.
      assert (i < length urls) by (apply nth_error_Some; congruence). lia. }
    rewrite Hpos in Houter.
    destruct (run_first_raise w p (map JString urls) i u e post pre
                (start (map JString urls)) Hinv Houter)
      as (lp' & Hrun & Hout & Hreq').
    + rewrite Htasks, nth_error_map, Hi. reflexivity.
    + exact He.
    + intros j url Hj Hurl. rewrite nth_error_map in Hurl.
      destruct (nth_error urls j) as [u'|] eqn:Hu'; [|discriminate].
      inversion Hurl; subst url. cbn. exact (Hpre j u' Hj Hu').
    + rewrite Horder, Hrun, Hout, Hreq', Hgets. unfold sent.
      destruct e; reflexivity.
  - intros Hall.
    destruct (run_all_quiet w p (map JString urls)) with
      (order := order) (lp := start (map JString urls))
      as (lp' & Hrun & Hout & Hreq').
    + intros url Hin. apply in_map_iff in Hin. destruct Hin as (u & <- & Hin).
      destruct (In_nth_error _ _ Hin) as [i Hi]. cbn.
      exact (proj2 (Hall i u Hi)).
    + exact Hinv.
    + intros i u Hi. rewrite Htasks, nth_error_map in Hi.
      destruct (nth_error urls i) as [u'|] eqn:Hu'; [|discriminate].
      exact (proj1 (Hall i u' Hu')).
    + rewrite Hrun, Hout, Hreq', Hgets. reflexivity.
Qed.

(** ** The search *)

Section SearchFacts.
Context {RE : re.Impl}.
Variable w : world.

Lemma scan_state gist p st r st' :
  gist_contains_pattern w gist p st = Some (r, st') ->
  st' = sent st (file_requests gist).
Proof.
  intros H. apply scan_inv in H. unfold file_requests.
  destruct (files_urls_of gist).
  - apply H.
  - rewrite sent_nil. apply H.
Qed.

Lemma gist_matches_iff p gist :
  gist_matches w p gist = true <-> has_matching_file w p gist.
Proof.
  unfold gist_matches, has_matching_file. split.
  - destruct (files_urls_of gist) as [files_urls|]; [|discriminate].
    intros H. apply existsb_exists in H. destruct H as (url & Hin & Hm).
    unfold file_matches in Hm. destruct url; try discriminate.
    destruct (session_get w s) as [response|] eqn:Hget; [|discriminate].
    apply andb_prop in Hm. destruct Hm as [Hs Hm].
    exists files_urls, s, response. repeat split; auto.
    now apply Z.eqb_eq.
  - intros (files_urls & u & response & -> & Hin & Hget & Hs & Hm).
    apply existsb_exists. exists (JString u). split; [assumption|].
    cbn. rewrite Hget, Hs, Hm. reflexivity.
Qed.

Lemma scan_found gist p st b st' :
  gist_contains_pattern w gist p st = Some (Ok b, st') ->
  b = gist_matches w p gist.
Proof.
  intros H. apply scan_inv in H. unfold gist_matches.
  destruct (files_urls_of gist) as [files_urls|]; [|destruct H; discriminate].
  destruct H as [_ H]. destruct b.
  - destruct H as (url & Hin & Hf). symmetry. apply existsb_exists.
    exists url. split; [assumption|]. now apply fate_found.
  - symmetry. apply not_true_is_false. intros E.
    apply existsb_exists in E. destruct E as (url & Hin & Hm).
    rewrite (fate_none w p url (H url Hin)) in Hm. discriminate.
Qed.

Lemma search_loop_step gist gists pat acc st :
  search_loop w (gist :: gists) pat acc st =
  match re.compile pat re.S with
  | inl msg => Some (Raise (re_error msg), st)
  | inr p =>
      match gist_contains_pattern w gist p st with
      | None => None
      | Some (Raise e, st1) => Some (Raise e, st1)
      | Some (Ok false, st1) => search_loop w gists pat acc st1
      | Some (Ok true, st1) =>
          match getitem gist "url" with
          | Raise e => Some (Raise e, st1)
          | Ok url => search_loop w gists pat (acc ++ [url]) st1
          end
      end
  end.
Proof.
  cbn [search_loop].
  unfold bind, re_compile, gist_contains_pattern_sync, raise, ret, lift.
  destruct (re.compile pat re.S) as [msg|p]; [reflexivity|].
  destruct (gist_contains_pattern w gist p st) as [[[[|]|e] st1]|];
    reflexivity.
Qed.

(** The matches of a search that ends well: the URLs of the gists with a
    matching file, in the order of the listing. *)
Lemma search_loop_ok : forall gists pat acc st matches st',
  search_loop w gists pat acc st = Some (Ok matches, st') ->
  (gists <> [] -> exists p, re.compile pat re.S = inr p) /\
  st' = sent st (flat_map file_requests gists) /\
  forall p, re.compile pat re.S = inr p ->
    exists new, matches = acc ++ new /\
                Forall2 url_of (filter (gist_matches w p) gists) new.
Proof.
  induction gists as [|gist gists IH]; intros pat acc st matches st' H.
  - inversion H; subst. split; [congruence|]. split; [now rewrite sent_nil|].
    intros p _. exists []. split; [now rewrite app_nil_r|constructor].
  - rewrite search_loop_step in H.
    destruct (re.compile pat re.S) as [msg|p] eqn:Hc; [discriminate|].
    destruct (gist_contains_pattern w gist p st) as [[[b|e] st1]|] eqn:Hscan;
      try discriminate.
    pose proof (scan_state _ _ _ _ _ Hscan) as ->.
    pose proof (scan_found _ _ _ _ _ Hscan) as Hb.
    split; [eauto|]. cbn [flat_map filter].
    destruct b.
    + destruct (getitem gist "url") as [url|e] eqn:Hurl; [|discriminate].
      apply IH in H. destruct H as (_ & -> & Hm).
      split; [now rewrite sent_sent|].
      intros p' Hp'. assert (p' = p) by congruence. subst p'.
      destruct (Hm p Hc) as (new & -> & Hf).
      rewrite <- Hb. exists (url :: new). split.
      * now rewrite <- app_assoc.
      * constructor; assumption.
    + apply IH in H. destruct H as (_ & -> & Hm).
      split; [now rewrite sent_sent|].
      intros p' Hp'. assert (p' = p) by congruence. subst p'.
      rewrite <- Hb. exact (Hm p Hc).
Qed.

(** A search that a scan ends with [GitHubError]: the gists before were
    scanned without raising, and none after is scanned. *)
Lemma search_loop_error : forall gists pat acc st code payload st',
  search_loop w gists pat acc st = Some (Raise (GitHubError code payload), st') ->
  exists before gist after p ms stk,
    gists = before ++ gist :: after /\
    re.compile pat re.S = inr p /\
    search_loop w before pat acc st = Some (Ok ms, stk) /\
    gist_contains_pattern w gist p stk =
      Some (Raise (GitHubError code payload), st') /\
    st' = sent st (flat_map file_requests (before ++ [gist])).
Proof.
  induction gists as [|gist gists IH]; intros pat acc st code payload st' H;
    [discriminate|].
  rewrite search_loop_step in H.
  destruct (re.compile pat re.S) as [msg|p] eqn:Hc; [discriminate|].
  destruct (gist_contains_pattern w gist p st) as [[[b|e] st1]|] eqn:Hscan;
    try discriminate.
  - pose proof (scan_state _ _ _ _ _ Hscan) as Hst1.
    assert (Hnext : exists acc',
               search_loop w gists pat acc' st1 =
                 Some (Raise (GitHubError code payload), st') /\
               search_loop w [gist] pat acc st = Some (Ok acc', st1)).
    { destruct b.
      - destruct (getitem gist "url") as [url|e] eqn:Hurl.
        + exists (acc ++ [url]). split; [assumption|].
          rewrite search_loop_step, Hc, Hscan, Hurl. reflexivity.
        + unfold getitem in Hurl.
          destruct gist; try discriminate.
          destruct (dict_get items "url"); try discriminate.
          inversion Hurl; subst. discriminate.
      - exists acc. split; [assumption|].
        rewrite search_loop_step, Hc, Hscan. reflexivity. }
    destruct Hnext as (acc' & Hrest & Hone).
    destruct (IH _ _ _ _ _ _ Hrest)
      as (before & g & after & p' & ms & stk & -> & Hp' & Hbefore & Hg & ->).
    exists (gist :: before), g, after, p', ms, stk.
    split; [reflexivity|]. split; [congruence|]. split; [|split; [assumption|]].
    + cbn [app]. rewrite search_loop_step, Hc, Hscan.
      rewrite search_loop_step, Hc, Hscan in Hone.
      destruct b.
      * destruct (getitem gist "url"); [|discriminate].
        inversion Hone; subst. assumption.
      * inversion Hone; subst. assumption.
    + subst st1. cbn [app flat_map]. now rewrite sent_sent.
  - inversion H; subst. exists [], gist, gists, p, acc, st.
    pose proof (scan_state _ _ _ _ _ Hscan) as Hst1.
    repeat split; auto. cbn. now rewrite app_nil_r.
Qed.

Lemma search_unfold fuel data st :
  search w fuel data st =
  match gists_for_user w fuel (username data) st with
  | None => None
  | Some (Raise e, st1) => Some (Raise e, st1)
  | Some (Ok gists, st1) =>
      match search_loop w gists (pattern data) [] st1 with
      | None => None
      | Some (Raise e, st2) => Some (Raise e, st2)
      | Some (Ok matches, st2) => Some (Ok (search_result data matches), st2)
      end
  end.
Proof.
  unfold search, bind, ret.
  destruct (gists_for_user w fuel (username data) st) as [[[gists|e] st1]|];
    reflexivity.
Qed.
End SearchFacts.

Section ResponseFacts.
Context {RE : re.Impl}.
Variable w : world.

Lemma post_search_unfold fuel data st :
  post_search w fuel data st =
  match gists_for_user w fuel (username data) st with
  | None => None
  | Some (Raise e, st1) => Some (exception_handler e st1)
  | Some (Ok gists, st1) =>
      match search_loop w gists (pattern data) [] st1 with
      | None => None
      | Some (Raise e, st2) => Some (exception_handler e st2)
      | Some (Ok matches, st2) =>
          Some (make_response (search_result data matches) 200, st2)
      end
  end.
Proof.
  unfold post_search. rewrite search_unfold.
  destruct (gists_for_user w fuel (username data) st) as [[[gists|e] st1]|];
    try reflexivity.
  destruct (search_loop w gists (pattern data) [] st1) as [[[m|e] st2]|];
    reflexivity.
Qed.

Lemma handler_not_200 e st : status_code (fst (exception_handler e st)) <> 200%Z.
Proof. destruct e; cbn; discriminate. Qed.

(** A [GitHubError] stands for an answer of the remote service: its
    status, which is not 200, and its body. *)
Lemma lister_error_origin url : forall fuel page gists st code payload st',
  gists_for_user_loop w fuel url page gists st =
    Some (Raise (GitHubError code payload), st') ->
  exists k response,
    requests_get w url k = Some response /\
    requests.status_code response = code /\
    requests.json response = payload /\
    code <> OK.
Proof.
  induction fuel as [|fuel IH]; intros page gists st code payload st' H;
    [discriminate|].
  cbn in H. unfold requests_get_page, bind, send in H.
  destruct (requests_get w url page) as [response|] eqn:Hget; cbn in H;
    [|discriminate].
  destruct (Z.eqb_spec (requests.status_code response) OK) as [Heq|Hne];
    cbn in H.
  - destruct (negb (truthy (requests.json response))); [discriminate|].
    unfold lift in H.
    destruct (list_iadd gists (requests.json response)) as [gists'|e] eqn:Hadd.
    + eapply IH. eassumption.
    + destruct (requests.json response); cbn in Hadd; try discriminate;
        inversion Hadd; subst; discriminate.
  - inversion H; subst. exists page, response. auto.
Qed.

Lemma scan_error_origin gist p st code payload st' :
  gist_contains_pattern w gist p st =
    Some (Raise (GitHubError code payload), st') ->
  exists u response,
    session_get w u = Some response /\
    aiohttp.status response = code /\
    aiohttp.json response = payload /\
    code <> OK.
Proof.
  intros H. apply scan_inv in H.
  destruct (files_urls_of gist) as [files_urls|e] eqn:Hf.
  - destruct H as (_ & _ & url & _ & Hfate).
    unfold fate, check_file_contains_pattern in Hfate.
    destruct url; try discriminate.
    destruct (session_get w s) as [response|] eqn:Hget; [|discriminate].
    destruct (Z.eqb_spec (aiohttp.status response) OK) as [Heq|Hne].
    + destruct (re.Pattern_match p (aiohttp.text response)); discriminate.
    + inversion Hfate; subst. exists s, response. auto.
  - exfalso. destruct H as [H _]. inversion H; subst e.
    unfold files_urls_of in Hf.
    assert (Hget : forall obj key c pl,
               getitem obj key <> Raise (GitHubError c pl)).
    { intros obj key c pl. unfold getitem.
      destruct obj; try discriminate.
      destruct (dict_get items key); discriminate. }
    destruct (getitem gist "files") as [files|e] eqn:Hfiles;
      [|inversion Hf; subst; exact (Hget _ _ _ _ Hfiles)].
    destruct (values files) as [vs|e] eqn:Hvs;
      [|destruct files; cbn in Hvs; inversion Hvs; subst; discriminate].
    clear Hvs Hfiles. induction vs as [|v vs IHv]; cbn in Hf; [discriminate|].
    destruct (getitem v "raw_url") eqn:Hv;
      [|inversion Hf; subst; exact (Hget _ _ _ _ Hv)].
    destruct (raw_urls vs); [discriminate|]. auto.
Qed.
End ResponseFacts.

(** C1. When a search ends with the success response, its [matches] are,
    in the order of the listing, the URLs of the gists of which at least
    one file was fetched with content that the compiled pattern matches: a
    URL is among the matches if and only if it is the URL of such a gist,
    and a gist without files is none of them. *)
Theorem matches_iff_matching_file {RE : re.Impl} (w : world) (fuel : nat)
        (data : post_data) (st st' st1 : state) (resp : http_response)
        (gists : list json_value) :
  post_search w fuel data st = Some (resp, st') ->
  status_code resp = 200%Z ->
  gists_for_user w fuel (username data) st = Some (Ok gists, st1) ->
  exists matches,
    body resp = search_result data matches /\
    (gists <> [] -> exists p, re.compile (pattern data) re.S = inr p) /\
    forall p, re.compile (pattern data) re.S = inr p ->
      Forall2 url_of (filter (gist_matches w p) gists) matches /\
      (forall gist, gist_matches w p gist = true <-> has_matching_file w p gist) /\
      (forall url, In url matches <->
                   exists gist, In gist gists /\ url_of gist url /\
                                has_matching_file w p gist) /\
      (forall gist, files_urls_of gist = Ok [] -> gist_matches w p gist = false).
Proof.
  intros Hpost Hstatus Hlist. rewrite post_search_unfold, Hlist in Hpost.
  destruct (search_loop w gists (pattern data) [] st1) as [[[matches|e] st2]|] eqn:Hloop;
    [| |discriminate].
  2: { injection Hpost as Hpost. exfalso.
       apply (handler_not_200 e st2). now rewrite Hpost. }
  inversion Hpost; subst resp st'. exists matches.
  destruct (search_loop_ok w _ _ _ _ _ _ Hloop) as (Hcompiled & _ & Hm).
  split; [reflexivity|]. split; [assumption|].
  intros p Hp. destruct (Hm p Hp) as (new & Hnew & Hf). cbn in Hnew. subst new.
  split; [assumption|]. split; [intros gist; apply gist_matches_iff|].
  split.
  - intros url. split.
    + intros Hin.
      assert (Hex : exists gist, In gist (filter (gist_matches w p) gists)
                                 /\ url_of gist url).
      { clear -Hf Hin. induction Hf as [|g u gs us Hgu Hrest IH];
          [contradiction|].
        destruct Hin as [<-|Hin].
        - exists g. split; [now left|assumption].
        - destruct (IH Hin) as (g' & Hg' & Hu). exists g'. split; [now right|assumption]. }
      destruct Hex as (gist & Hg & Hu). apply filter_In in Hg.
      exists gist. split; [apply Hg|]. split; [assumption|].
      apply gist_matches_iff. apply Hg.
    + intros (gist & Hin & Hu & Hhas).
      assert (Hg : In gist (filter (gist_matches w p) gists))
        by (apply filter_In; split; [assumption|now apply gist_matches_iff]).
      clear -Hf Hg Hu. induction Hf as [|g u gs us Hgu Hrest IH];
        [contradiction|].
      destruct Hg as [->|Hg].
      * left. unfold url_of in *. congruence.
      * right. auto.
  - intros gist Hfiles. unfold gist_matches. now rewrite Hfiles.
Qed.

(** C6. The scans of a search follow the listing, one gist after the
    other: the requests of a search that ends well are those of the
    listing, then those of the first gist, then those of the second, and so
    on, and its matches come in that order.  When the scan of a gist raises
    [GitHubError], the search raises it at once: the gists before it were
    scanned without raising, its own requests are the last ones, and no
    file of a later gist is requested. *)
Theorem search_sequential {RE : re.Impl} (w : world) (fuel : nat)
        (data : post_data) (st st' st1 : state) (r : result json_value)
        (gists : list json_value) :
  search w fuel data st = Some (r, st') ->
  gists_for_user w fuel (username data) st = Some (Ok gists, st1) ->
  match r with
  | Ok result =>
      st' = sent st1 (flat_map (file_requests) gists) /\
      exists matches,
        result = search_result data matches /\
        forall p, re.compile (pattern data) re.S = inr p ->
                  Forall2 url_of (filter (gist_matches w p) gists) matches
  | Raise (GitHubError code payload) =>
      exists before gist after p ms stk,
        gists = before ++ gist :: after /\
        re.compile (pattern data) re.S = inr p /\
        search_loop w before (pattern data) [] st1 = Some (Ok ms, stk) /\
        stk = sent st1 (flat_map file_requests before) /\
        gist_contains_pattern w gist p stk =
          Some (Raise (GitHubError code payload), st') /\
        st' = sent st1 (flat_map file_requests (before ++ [gist]))
  | Raise _ => True
  end.
Proof.
  intros Hsearch Hlist. rewrite search_unfold, Hlist in Hsearch.
  destruct (search_loop w gists (pattern data) [] st1) as [[[matches|e] st2]|] eqn:Hloop;
    [| |discriminate]; inversion Hsearch; subst r st'.
  - destruct (search_loop_ok w _ _ _ _ _ _ Hloop) as (_ & Hst & Hm).
    split; [assumption|]. exists matches. split; [reflexivity|].
    intros p Hp. destruct (Hm p Hp) as (new & Hnew & Hf). cbn in Hnew.
    now subst new.
  - destruct e; try exact I.
    destruct (search_loop_error w _ _ _ _ _ _ _ Hloop)
      as (before & gist & after & p & ms & stk & Hg & Hp & Hbefore & Hscan & Hst).
    exists before, gist, after, p, ms, stk. repeat split; try assumption.
    apply (search_loop_ok w _ _ _ _ _ _ Hbefore).
Qed.

(** C3, as the code has it.  When the pattern does not compile and the
    listing succeeds with at least one gist, the response is 400 with the
    message "Invalid pattern, " followed by the diagnostic of [re.compile]
    (for the pattern "[": "Invalid pattern, unterminated character set at
    position 0").  The page requests of the listing have been sent by
    then; no file is fetched. *)
Theorem invalid_pattern_response {RE : re.Impl} (w : world) (fuel : nat)
        (data : post_data) (st st1 : state) (msg : string)
        (gists : list json_value) :
  re.compile (pattern data) re.S = inl msg ->
  gists_for_user w fuel (username data) st = Some (Ok gists, st1) ->
  gists <> [] ->
  post_search w fuel data st =
    Some (make_response
            (JObject [("error", JString ("Invalid pattern, " ++ msg)%string)]) 400,
          st1)
  /\ exists count,
       st1 = sent st (page_requests (gists_url_for (username data)) 1 count).
Proof.
  intros Hc Hlist Hne. split.
  - rewrite post_search_unfold, Hlist.
    destruct gists as [|gist gists]; [contradiction|].
    rewrite search_loop_step, Hc. reflexivity.
  - unfold gists_for_user in Hlist.
    destruct (loop_trace w _ _ _ _ _ _ _ Hlist) as (count & _ & Hst).
    eauto.
Qed.

(** C9. When a search ends with a [GitHubError], the response is 500 with
    the body [{"error": "Internal error. Please contact technical
    support."}], the same for every status and payload; the status and the
    payload, which are those of an answer of the listing endpoint or of a
    file fetch with a status other than 200, go to the application log
    only. *)
Theorem remote_error_response {RE : re.Impl} (w : world) (fuel : nat)
        (data : post_data) (st st1 : state) (code : Z) (payload : json_value) :
  search w fuel data st = Some (Raise (GitHubError code payload), st1) ->
  post_search w fuel data st =
    Some ({| status_code := 500;
             body := JObject [("error",
                               JString "Internal error. Please contact technical support.")] |},
          {| net := net st1;
             log := log st1 ++ [{| log_msg := "GitHub API error: %s (%s)";
                                   log_payload := payload;
                                   log_status := code |}] |})
  /\ (forall code' payload' st2,
         fst (exception_handler (GitHubError code' payload') st2) =
         fst (exception_handler (GitHubError code payload) st1))
  /\ code <> OK
  /\ ((exists page response,
          requests_get w (gists_url_for (username data)) page = Some response /\
          requests.status_code response = code /\
          requests.json response = payload)
      \/ (exists u response,
             session_get w u = Some response /\
             aiohttp.status response = code /\
             aiohttp.json response = payload)).
Proof.
  intros Hsearch. split; [|split; [reflexivity|]].
  - unfold post_search. rewrite Hsearch. reflexivity.
  - rewrite search_unfold in Hsearch.
    destruct (gists_for_user w fuel (username data) st) as [[[gists|e] st0]|] eqn:Hlist;
      [| |discriminate].
    + destruct (search_loop w gists (pattern data) [] st0) as [[[m|e] st2]|] eqn:Hloop;
        try discriminate.
      inversion Hsearch; subst e st2.
      destruct (search_loop_error w _ _ _ _ _ _ _ Hloop)
        as (before & gist & after & p & ms & stk & _ & _ & _ & Hscan & _).
      destruct (scan_error_origin w _ _ _ _ _ _ Hscan)
        as (u & response & Hget & Hs & Hj & Hne).
      split; [assumption|]. right. eauto.
    + inversion Hsearch; subst e st0. unfold gists_for_user in Hlist.
      destruct (lister_error_origin w _ _ _ _ _ _ _ _ Hlist)
        as (k & response & Hget & Hs & Hj & Hne).
      split; [assumption|]. left. eauto.
Qed.

(** C10. When the first page of the listing is empty, the response is 200
    with status "success" and no matches, whatever the pattern string is,
    one that does not compile included: no pattern is compiled. *)
Theorem empty_listing_success {RE : re.Impl} (w : world) (fuel : nat)
        (data : post_data) (st : state) :
  requests_get w (gists_url_for (username data)) 1 = Some (page_response []) ->
  1 <= fuel ->
  post_search w fuel data st =
    Some ({| status_code := 200;
             body := JObject [("status", JString "success");
                              ("username", JString (username data));
                              ("pattern", JString (pattern data));
                              ("matches", JArray [])] |},
          sent st [RequestsGet (gists_url_for (username data)) 1]).
Proof.
  intros Hget Hfuel. destruct fuel as [|fuel]; [lia|].
  rewrite post_search_unfold. unfold gists_for_user.
  rewrite (@loop_last w fuel _ _ [] st _ Hget eq_refl eq_refl).
  reflexivity.
Qed.

(** ** The pattern matcher *)

Section RegexFacts.
Import PyRe.
Variable dotall : bool.

Lemma append_empty (s1 s2 : string) :
  (s1 ++ s2)%string = EmptyString -> s1 = EmptyString /\ s2 = EmptyString.
Proof. destruct s1; cbn; [auto|discriminate]. Qed.

Lemma nullable_lang r : nullable r = true <-> lang dotall r "".
Proof.
  split.
  - induction r; cbn; intros H; try discriminate.
    + constructor.
    + apply andb_prop in H. destruct H as [H1 H2].
      change EmptyString with ("" ++ "")%string. constructor; auto.
    + apply orb_prop in H. destruct H as [H|H];
        [apply lang_alt_l|apply lang_alt_r]; auto.
    + constructor.
  - intros H. remember EmptyString as s eqn:Hs.
    induction H; cbn; try discriminate; auto.
    + apply append_empty in Hs. destruct Hs as [-> ->].
      now rewrite IHlang1, IHlang2.
    + now rewrite IHlang.
    + rewrite IHlang by assumption. apply orb_true_r.
Qed.

Lemma deriv_sound c : forall r s,
  lang dotall (deriv dotall c r) s -> lang dotall r (String c s).
Proof.
  induction r; cbn; intros s H.
  - inversion H.
  - inversion H.
  - destruct (Ascii.eqb_spec c c0); inversion H; subst. constructor.
  - destruct (any_accepts dotall c) eqn:E; inversion H; subst.
    now constructor.
  - destruct (set_accepts negate ranges c) eqn:E; inversion H; subst.
    now constructor.
  - destruct (nullable r1) eqn:E.
    + inversion H; subst.
      * inversion H3; subst.
        change (String c (s1 ++ s2)) with (String c s1 ++ s2)%string.
        constructor; auto.
      * change (String c s) with ("" ++ String c s)%string.
        constructor; [now apply nullable_lang|auto].
    + inversion H; subst.
      change (String c (s1 ++ s2)) with (String c s1 ++ s2)%string.
      constructor; auto.
  - inversion H; subst; [apply lang_alt_l|apply lang_alt_r]; auto.
  - inversion H; subst.
    change (String c (s1 ++ s2)) with (String c s1 ++ s2)%string.
    constructor; auto.
Qed.

Lemma deriv_complete c r s :
  lang dotall r (String c s) -> lang dotall (deriv dotall c r) s.
Proof.
  intros H. remember (String c s) as cs eqn:Hcs. revert s Hcs.
  induction H as [|c0|c0 Hacc|negate ranges c0 Hacc|r1 r2 s1 s2 H1 IH1 H2 IH2
                  |r1 r2 s0 H1 IH1|r1 r2 s0 H2 IH2| |r1 s1 s2 H1 IH1 H2 IH2];
    intros t Hcs; cbn; try discriminate.
  - inversion Hcs; subst. rewrite Ascii.eqb_refl. constructor.
  - inversion Hcs; subst. rewrite Hacc. constructor.
  - inversion Hcs; subst. rewrite Hacc. constructor.
  - destruct s1 as [|c1 s1]; cbn in Hcs.
    + subst s2. apply nullable_lang in H1. rewrite H1.
      apply lang_alt_r. auto.
    + inversion Hcs; subst.
      assert (Hcat : lang dotall (Cat (deriv dotall c r1) r2) (s1 ++ s2))
        by (constructor; auto).
      destruct (nullable r1); [now apply lang_alt_l|assumption].
  - apply lang_alt_l. auto.
  - apply lang_alt_r. auto.
  - destruct s1 as [|c1 s1]; cbn in Hcs.
    + apply (IH2 t Hcs).
    + inversion Hcs; subst. constructor; auto.
Qed.

(** [Pattern.match] succeeds exactly when a prefix of the string is in
    the language of the pattern. *)
Lemma match_at_start_spec : forall s r,
  match_at_start dotall r s = true <->
  exists pre post, s = (pre ++ post)%string /\ lang dotall r pre.
Proof.
  induction s as [|c s IH]; intros r; cbn.
  - rewrite orb_false_r. split.
    + intros H. exists "", "". split; [reflexivity|now apply nullable_lang].
    + intros (pre & post & Hs & Hl). symmetry in Hs.
      apply append_empty in Hs. destruct Hs as [-> _].
      now apply nullable_lang.
  - split.
    + intros H. apply orb_prop in H. destruct H as [H|H].
      * exists "", (String c s). split; [reflexivity|now apply nullable_lang].
      * apply IH in H. destruct H as (pre & post & -> & Hl).
        exists (String c pre), post. split; [reflexivity|].
        now apply deriv_sound.
    + intros (pre & post & Hs & Hl). destruct pre as [|c' pre]; cbn in Hs.
      * apply nullable_lang in Hl. now rewrite Hl.
      * inversion Hs; subst. apply orb_true_iff. right. apply IH.
        exists pre, post. split; [reflexivity|]. now apply deriv_complete.
Qed.
End RegexFacts.

Lemma compile_keeps_flags pat flags p :
  PyRe.compile pat flags = inr p -> PyRe.flags p = flags.
Proof.
  unfold PyRe.compile.
  destruct (negb ((flags =? 0)%Z || (flags =? re.DOTALL)%Z)); [discriminate|].
  destruct (PyRe.parse pat) as [[]|r]; try discriminate.
  intros H. inversion H. reflexivity.
Qed.

(** C5. With the pattern compiled as [search] compiles it, a fetched file
    is a match exactly when some prefix of its content, from position 0,
    is in the language of the pattern, where [.] stands for every
    character, the newline included: an occurrence further in the content
    does not count, and the content is matched as one string across its
    lines. *)
Theorem matching_anchored_dotall (pat : string) (p : PyRe.Pattern)
        (response : aiohttp.ClientResponse) :
  re.compile (Impl := PyRe_Impl) pat re.S = inr p ->
  aiohttp.status response = OK ->
  PyRe.dotall p = true
  /\ (check_file_contains_pattern (RE := PyRe_Impl) p (Some response)
        = Some PatternFound <->
      exists pre post,
        aiohttp.text response = (pre ++ post)%string /\
        PyRe.lang true (PyRe.ast p) pre)
  /\ (forall c, PyRe.lang true PyRe.Any (String c ""))
  /\ (forall b, PyRe.compile "b" re.S = inr b ->
        PyRe.lang true (PyRe.ast b) "b" /\
        check_file_contains_pattern (RE := PyRe_Impl) b
          (Some {| aiohttp.status := OK; aiohttp.text := "ab";
                   aiohttp.json := JNull |}) = None)
  /\ (forall d, PyRe.compile "a.b" re.S = inr d ->
        check_file_contains_pattern (RE := PyRe_Impl) d
          (Some {| aiohttp.status := OK;
                   aiohttp.text := String "a" (String PyRe.newline "b");
                   aiohttp.json := JNull |}) = Some PatternFound).
Proof.
  intros Hc Hs.
  assert (Hd : PyRe.dotall p = true).
  { unfold PyRe.dotall. change (PyRe.compile pat re.S = inr p) in Hc.
    now rewrite (compile_keeps_flags _ _ _ Hc). }
  split; [assumption|]. split; [|split; [|split]].
  - unfold check_file_contains_pattern. rewrite Hs. cbn.
    unfold PyRe.Pattern_match. rewrite Hd.
    rewrite <- match_at_start_spec.
    destruct (PyRe.match_at_start true (PyRe.ast p) (aiohttp.text response));
      split; congruence.
  - intros c. now constructor.
  - intros b Hb. vm_compute in Hb. inversion Hb; subst b. split.
    + cbn. change "b"%string with ("b" ++ "")%string.
      constructor; constructor.
    + reflexivity.
  - intros d Hdc. vm_compute in Hdc. inversion Hdc; subst d. reflexivity.
Qed.

(** ** The scenarios of the test suite *)

Section Witnesses.
Import tests scenarios.

(** Scenario A: one gist, the pattern matches its first file. *)
Lemma matches_iff_matching_file_witness :
  exists matches,
    search_result (request ".*Theodore Roosevelt.*") [gist_url TEST_GIST_FILES]
      = search_result (request ".*Theodore Roosevelt.*") matches /\
    ([gist_all] <> [] ->
     exists p, PyRe.compile ".*Theodore Roosevelt.*" re.S = inr p) /\
    forall p, PyRe.compile ".*Theodore Roosevelt.*" re.S = inr p ->
      Forall2 url_of
        (filter (gist_matches (RE := PyRe_Impl) (single_page [0; 1; 2]) p)
                [gist_all]) matches /\
      (forall gist,
          gist_matches (RE := PyRe_Impl) (single_page [0; 1; 2]) p gist = true
          <-> has_matching_file (RE := PyRe_Impl) (single_page [0; 1; 2]) p gist) /\
      (forall url, In url matches <->
          exists gist, In gist [gist_all] /\ url_of gist url /\
            has_matching_file (RE := PyRe_Impl) (single_page [0; 1; 2]) p gist) /\
      (forall gist, files_urls_of gist = Ok [] ->
          gist_matches (RE := PyRe_Impl) (single_page [0; 1; 2]) p gist = false).
Proof.
  apply (matches_iff_matching_file (RE := PyRe_Impl)
           (single_page [0; 1; 2]) 2 (request ".*Theodore Roosevelt.*")
           empty_state
           (sent (listed 2) (file_requests gist_all))
           (listed 2)
           {| status_code := 200;
              body := search_result (request ".*Theodore Roosevelt.*")
                                    [gist_url TEST_GIST_FILES] |}
           [gist_all]).
  - vm_compute. reflexivity.
  - reflexivity.
  - vm_compute. reflexivity.
Defined.

(** A match and an error in one gist: the answer that comes first
    decides. *)
Lemma scan_race_witness :
  gist_contains_pattern (RE := PyRe_Impl) (fetch_error [0; 1]) page1_gist
                        (compiled ".*Roosevelt") empty_state
    = Some (Ok true,
            sent empty_state
                 (map SessionGet [file_url page1_gist_files "file1.txt";
                                  file_url page1_gist_files "file2.txt"]))
  /\ gist_contains_pattern (RE := PyRe_Impl) (fetch_error [1; 0]) page1_gist
                           (compiled ".*Roosevelt") empty_state
     = Some (Raise (GitHubError 403 fetch_error_payload),
             sent empty_state
                  (map SessionGet [file_url page1_gist_files "file1.txt";
                                   file_url page1_gist_files "file2.txt"])).
Proof.
  split.
  - apply (proj1 (scan_race (RE := PyRe_Impl) (fetch_error [0; 1]) page1_gist
                    (compiled ".*Roosevelt") empty_state
                    [file_url page1_gist_files "file1.txt";
                     file_url page1_gist_files "file2.txt"]
                    ltac:(vm_compute; reflexivity))
             [] 0 [1] (file_url page1_gist_files "file1.txt") PatternFound).
    + reflexivity.
    + reflexivity.
    + vm_compute. reflexivity.
    + intros j u' [].
  - apply (proj1 (scan_race (RE := PyRe_Impl) (fetch_error [1; 0]) page1_gist
                    (compiled ".*Roosevelt") empty_state
                    [file_url page1_gist_files "file1.txt";
                     file_url page1_gist_files "file2.txt"]
                    ltac:(vm_compute; reflexivity))
             [] 1 [0] (file_url page1_gist_files "file2.txt")
             (GitHubError 403 fetch_error_payload)).
    + reflexivity.
    + reflexivity.
    + vm_compute. reflexivity.
    + intros j u' [].
Defined.

(** [test__search__invalid_pattern] *)
Lemma invalid_pattern_response_witness :
  post_search (RE := PyRe_Impl) (single_page [0; 1; 2]) 2 (request "[")
              empty_state
    = Some ({| status_code := 400;
               body := JObject [("error",
                                 JString "Invalid pattern, unterminated character set at position 0")] |},
            listed 2)
  /\ exists count,
       listed 2 = sent empty_state
                       (page_requests (gists_url_for TEST_USERNAME) 1 count).
Proof.
  apply (invalid_pattern_response (RE := PyRe_Impl) (single_page [0; 1; 2]) 2
           (request "[") empty_state (listed 2)
           "unterminated character set at position 0" [gist_all]).
  - vm_compute. reflexivity.
  - vm_compute. reflexivity.
  - discriminate.
Defined.

(** The listing was requested before the pattern was found invalid. *)
Lemma invalid_pattern_counterexample :
  ~ (forall (RE : re.Impl) (w : world) (fuel : nat) (data : post_data)
            (st st' : state) (resp : http_response) (msg : string),
        re.compile (pattern data) re.S = inl msg ->
        post_search w fuel data st = Some (resp, st') ->
        status_code resp = 400%Z /\
        body resp = JObject [("error", JString ("Invalid pattern, " ++ msg)%string)] /\
        net st' = net st).
Proof.
  intros H.
  destruct (H PyRe_Impl (single_page [0; 1; 2]) 2 (request "[") empty_state
              (listed 2)
              {| status_code := 400;
                 body := JObject [("error",
                                   JString "Invalid pattern, unterminated character set at position 0")] |}
              "unterminated character set at position 0"
              ltac:(vm_compute; reflexivity) ltac:(vm_compute; reflexivity))
    as (_ & _ & Hnet).
  vm_compute in Hnet. discriminate.
Qed.

(** [test__search__multiple_pages_found]: two gists, one per page. *)
Lemma lister_pagination_witness :
  gists_for_user (multiple_pages [0; 1]) 3 TEST_USERNAME empty_state
    = Some (Ok [page1_gist; page2_gist],
            sent empty_state (page_requests (gists_url_for TEST_USERNAME) 1 3))
  /\ length (page_requests (gists_url_for TEST_USERNAME) 1 3) = 3.
Proof.
  apply (lister_pagination (multiple_pages [0; 1]) TEST_USERNAME 1
           [page1_gist; page2_gist] 3 empty_state).
  - lia.
  - intros page Hpage. cbn in Hpage.
    destruct page as [|[|[|[|page]]]]; try lia; vm_compute; reflexivity.
  - cbn. lia.
Defined.

(** A gist without files. *)
Lemma scan_of_no_files_witness :
  gist_contains_pattern (RE := PyRe_Impl) (single_page [0; 1; 2])
                        (fake_gist TEST_USERNAME []) (compiled ".*")
                        (listed 2)
    = Some (Ok false, listed 2).
Proof.
  apply (scan_of_no_files (RE := PyRe_Impl)). reflexivity.
Defined.

(** The second page of the listing is answered with 403. *)
Lemma lister_error_page_witness :
  gists_for_user second_page_error 2 TEST_USERNAME empty_state
    = Some (Raise (GitHubError 403 listing_error_payload), listed 2).
Proof.
  apply (lister_error_page second_page_error TEST_USERNAME [[gist_all]]
           403 listing_error_payload 2 empty_state).
  - intros i items Hi. destruct i as [|[|i]]; cbn in Hi; inversion Hi.
    split; [discriminate|vm_compute; reflexivity].
  - vm_compute. reflexivity.
  - discriminate.
  - cbn. lia.
Defined.

(** [test__search__github_api_error_listing_user_gists] *)
Lemma remote_error_response_witness :
  post_search (RE := PyRe_Impl) listing_error 1
              (request ".*Theodore Roosevelt.*") empty_state
    = Some ({| status_code := 500;
               body := JObject [("error",
                                 JString "Internal error. Please contact technical support.")] |},
            {| net := net (listed 1);
               log := log (listed 1)
                      ++ [{| log_msg := "GitHub API error: %s (%s)";
                             log_payload := listing_error_payload;
                             log_status := 403 |}] |}).
Proof.
  apply (proj1 (remote_error_response (RE := PyRe_Impl) listing_error 1
                  (request ".*Theodore Roosevelt.*") empty_state (listed 1)
                  403 listing_error_payload
                  ltac:(vm_compute; reflexivity))).
Defined.

(** No gist, and a pattern that does not compile. *)
Lemma empty_listing_success_witness :
  post_search (RE := PyRe_Impl) no_gists 1 (request "[") empty_state
    = Some ({| status_code := 200;
               body := JObject [("status", JString "success");
                                ("username", JString TEST_USERNAME);
                                ("pattern", JString "[");
                                ("matches", JArray [])] |},
            sent empty_state [RequestsGet (gists_url_for TEST_USERNAME) 1]).
Proof.
  apply (empty_listing_success (RE := PyRe_Impl) no_gists 1 (request "[")
           empty_state).
  - vm_compute. reflexivity.
  - lia.
Defined.
(** [test__search__multiple_pages_found], and a search that the scan of
    its first gist aborts. *)
Lemma search_sequential_witness :
  (sent (listed 3) (flat_map file_requests [page1_gist; page2_gist])
     = sent (listed 3) (flat_map file_requests [page1_gist; page2_gist]) /\
   exists matches,
     search_result (request ".*Voltaire.*") [gist_url page2_gist_files]
       = search_result (request ".*Voltaire.*") matches /\
     forall p, PyRe.compile ".*Voltaire.*" re.S = inr p ->
       Forall2 url_of
         (filter (gist_matches (RE := PyRe_Impl) (multiple_pages [0; 1]) p)
                 [page1_gist; page2_gist]) matches)
  /\ exists before gist after p ms stk,
       [page1_gist; page2_gist] = before ++ gist :: after /\
       PyRe.compile ".*Voltaire.*" re.S = inr p /\
       search_loop (RE := PyRe_Impl) (fetch_error [1; 0]) before
                   ".*Voltaire.*" [] (listed 3) = Some (Ok ms, stk) /\
       stk = sent (listed 3) (flat_map file_requests before) /\
       gist_contains_pattern (RE := PyRe_Impl) (fetch_error [1; 0]) gist p stk
         = Some (Raise (GitHubError 403 fetch_error_payload),
                 sent (listed 3) (file_requests page1_gist)) /\
       sent (listed 3) (file_requests page1_gist)
         = sent (listed 3) (flat_map file_requests (before ++ [gist])).
Proof.
  split.
  - apply (search_sequential (RE := PyRe_Impl) (multiple_pages [0; 1]) 3
             (request ".*Voltaire.*") empty_state
             (sent (listed 3) (flat_map file_requests [page1_gist; page2_gist]))
             (listed 3)
             (Ok (search_result (request ".*Voltaire.*")
                                [gist_url page2_gist_files]))
             [page1_gist; page2_gist]);
      vm_compute; reflexivity.
  - apply (search_sequential (RE := PyRe_Impl) (fetch_error [1; 0]) 3
             (request ".*Voltaire.*") empty_state
             (sent (listed 3) (file_requests page1_gist))
             (listed 3)
             (Raise (GitHubError 403 fetch_error_payload))
             [page1_gist; page2_gist]);
      vm_compute; reflexivity.
Defined.

(** The third file of the fixtures and the pattern of
    [test__search__single_page_found]. *)
Lemma matching_anchored_dotall_witness :
  check_file_contains_pattern (RE := PyRe_Impl) (compiled ".*Voltaire.*")
    (Some {| aiohttp.status := 200;
             aiohttp.text := snd (nth 2 TEST_GIST_FILES ("", ""));
             aiohttp.json := JNull |}) = Some PatternFound
  <-> exists pre post,
        snd (nth 2 TEST_GIST_FILES ("", "")) = (pre ++ post)%string /\
        PyRe.lang true (PyRe.ast (compiled ".*Voltaire.*")) pre.
Proof.
  apply (proj1 (proj2 (matching_anchored_dotall ".*Voltaire.*"
                         (compiled ".*Voltaire.*")
                         {| aiohttp.status := 200;
                            aiohttp.text := snd (nth 2 TEST_GIST_FILES ("", ""));
                            aiohttp.json := JNull |}
                         ltac:(vm_compute; reflexivity)
                         ltac:(reflexivity)))).
Defined.
(** The pattern of [test__search__single_page_found] on the third file of
    the fixtures: found in dot-all mode, not found without it (the content
    starts with a newline), and a pattern that occurs only further in the
    content is not found either. *)
Example dotall_and_anchor_on_fixture :
  let content := snd (nth 2 TEST_GIST_FILES ("", "")) in
  PyRe.Pattern_match (compiled ".*Voltaire.*") content = true
  /\ PyRe.Pattern_match {| PyRe.ast := PyRe.ast (compiled ".*Voltaire.*");
                          PyRe.flags := 0 |} content = false
  /\ PyRe.Pattern_match (compiled "Voltaire") content = false.
Proof. vm_compute. auto. Qed.
End Witnesses.

(** * Further properties *)

(** ** The lister *)

Section ListerMore.
Variable w : world.

Lemma loop_until_falsy url last : forall pages k gists fuel st,
  (forall i items, nth_error pages i = Some items ->
     items <> [] /\ requests_get w url (k + i) = Some (page_response items)) ->
  requests_get w url (k + length pages) = Some last ->
  requests.status_code last = OK ->
  truthy (requests.json last) = false ->
  length pages + 1 <= fuel ->
  gists_for_user_loop w fuel url k gists st =
  Some (Ok (gists ++ concat pages),
        sent st (page_requests url k (length pages + 1))).
Proof.
  induction pages as [|items pages IH];
    intros k gists fuel st Hok Hlast Hcode Hfalsy Hfuel;
    (destruct fuel as [|fuel]; [cbn in Hfuel; lia|]).
  - cbn [length] in Hlast. rewrite Nat.add_0_r in Hlast.
    rewrite (@loop_last w fuel _ _ gists st _ Hlast Hcode Hfalsy).
    cbn. now rewrite app_nil_r.
  - destruct (Hok 0 items eq_refl) as [Hne Hget].
    rewrite Nat.add_0_r in Hget.
    rewrite (@loop_more w fuel _ _ gists st _ _ Hget eq_refl eq_refl Hne).
    rewrite (IH (k + 1) _ fuel).
    + rewrite sent_sent. unfold page_requests. cbn.
      now rewrite (Nat.add_1_r k), <- app_assoc.
    + intros i its Hi. specialize (Hok (S i) its Hi).
      now replace (k + 1 + i) with (k + S i) by lia.
    + cbn [length] in Hlast.
      now replace (k + 1 + length pages) with (k + S (length pages)) by lia.
    + exact Hcode.
    + exact Hfalsy.
    + cbn in Hfuel. lia.
Qed.

Lemma loop_without_end url :
  (forall page, 1 <= page ->
     exists items, items <> [] /\
                   requests_get w url page = Some (page_response items)) ->
  forall fuel page gists st,
    1 <= page -> gists_for_user_loop w fuel url page gists st = None.
Proof.
  intros Hall. induction fuel as [|fuel IH]; intros page gists st Hpage;
    [reflexivity|].
  destruct (Hall page Hpage) as (items & Hne & Hget).
  rewrite (@loop_more w fuel _ _ gists st _ _ Hget eq_refl eq_refl Hne).
  apply IH. lia.
Qed.
End ListerMore.

(** X1. The lister returns the records of the pages up to the first page
    whose body is empty, in order, whatever the sizes of the pages, and
    requests nothing beyond that page. *)
Theorem lister_concatenates_pages (w : world) (username : string)
        (pages : list (list json_value)) (last : requests.Response)
        (fuel : nat) (st : state) :
  (forall i items, nth_error pages i = Some items ->
     items <> [] /\
     requests_get w (gists_url_for username) (1 + i) = Some (page_response items)) ->
  requests_get w (gists_url_for username) (1 + length pages) = Some last ->
  requests.status_code last = OK ->
  truthy (requests.json last) = false ->
  length pages + 1 <= fuel ->
  gists_for_user w fuel username st =
    Some (Ok (concat pages),
          sent st (page_requests (gists_url_for username) 1 (length pages + 1))).
Proof.
  intros Hok Hlast Hcode Hfalsy Hfuel. unfold gists_for_user.
  exact (loop_until_falsy w _ last pages 1 [] fuel st Hok Hlast Hcode Hfalsy Hfuel).
Qed.

(** X2. When every page of the listing is answered with success and at
    least one record, the lister never returns. *)
Theorem lister_never_returns (w : world) (username : string) (fuel : nat)
        (st : state) :
  (forall page, 1 <= page ->
     exists items, items <> [] /\
       requests_get w (gists_url_for username) page = Some (page_response items)) ->
  gists_for_user w fuel username st = None.
Proof.
  intros Hall. unfold gists_for_user.
  apply (loop_without_end w _ Hall). lia.
Qed.

(** X3. Whatever it ends with, the lister has requested the pages 1, 2,
    ..., [count] of the user's listing, each once and in turn, with
    [count] at least 1; it fetches no file and writes nothing to the log. *)
Theorem lister_sends_only_pages (w : world) (username : string) (fuel : nat)
        (st st' : state) (r : result (list json_value)) :
  gists_for_user w fuel username st = Some (r, st') ->
  exists count,
    0 < count /\
    net st' = net st ++ map (RequestsGet (gists_url_for username)) (seq 1 count) /\
    log st' = log st.
Proof.
  intros H. unfold gists_for_user in H.
  destruct (loop_trace w _ _ _ _ _ _ _ H) as (count & Hc & ->).
  exists count. repeat split; auto.
Qed.


(** ** The mocks of the test suite *)

Lemma find_in_pages (f : nat -> string * nat * requests.Response)
      (url : string) :
  (forall j, fst (fst (f j)) = url /\ snd (fst (f j)) = j + 1) ->
  forall n start page rest,
    find (fun r => String.eqb (fst (fst r)) url && (snd (fst r) =? page)%nat)
         (map f (seq start n) ++ rest) =
    if (start + 1 <=? page)%nat && (page <=? start + n)%nat
    then Some (f (page - 1))
    else find (fun r => String.eqb (fst (fst r)) url && (snd (fst r) =? page)%nat)
              rest.
Proof.
  intros Hf. induction n as [|n IH]; intros start page rest.
  - cbn [seq map app].
    destruct (Nat.leb_spec (start + 1) page), (Nat.leb_spec page (start + 0));
      cbn; try reflexivity; lia.
  - cbn [seq map app find]. destruct (Hf start) as [-> ->].
    rewrite String.eqb_refl. cbn [andb].
    destruct (Nat.eqb_spec (start + 1) page) as [<-|Hne].
    + destruct (Nat.leb_spec (start + 1) (start + 1)),
               (Nat.leb_spec (start + 1) (start + S n)); try lia.
      cbn. now rewrite Nat.add_sub.
    + rewrite IH.
      destruct (Nat.leb_spec (S start + 1) page), (Nat.leb_spec page (S start + n)),
               (Nat.leb_spec (start + 1) page), (Nat.leb_spec page (start + S n));
        cbn; try reflexivity; lia.
Qed.

Lemma mock_gist_request_serves (username : string) (gists : list json_value)
      (per_page : nat) (order : list nat) :
  0 < per_page ->
  serves (tests.mocked (tests.mock_gist_request tests.no_mocks username gists per_page)
                       order)
         (gists_url_for username) per_page gists.
Proof.
  intros Hp page Hpage. cbn [tests.mocked requests_get tests.mock_gist_request
                              tests.pages tests.no_mocks app].
  change (tests.gists_page_url username) with (gists_url_for username).
  rewrite (find_in_pages
             (fun k => (gists_url_for username, k + 1,
                        {| requests.status_code := 200;
                           requests.json :=
                             JArray (firstn per_page (skipn (k * per_page) gists)) |}))
             (gists_url_for username)
             ltac:(intros j; split; reflexivity)).
  fold (ceil_div (length gists) per_page).
  destruct (Nat.leb_spec (0 + 1) page) as [_|]; [|lia].
  destruct (Nat.leb_spec page (0 + ceil_div (length gists) per_page)) as [Hle|Hgt];
    cbn [andb].
  - reflexivity.
  - cbn [find fst snd]. rewrite String.eqb_refl.
    assert (Hlast : page = ceil_div (length gists) per_page + 1)
      by (unfold ceil_div in *; lia).
    rewrite <- Hlast, Nat.eqb_refl. cbn [andb]. unfold page_response, page_slice.
    rewrite Hlast, Nat.add_sub, skipn_all2, firstn_nil; [reflexivity|].
    apply ceil_div_covers. assumption.
Qed.

(** X4. What [mock_gist_request] registers, the lister gives back: for
    every page size above zero, [gists_for_user] on the mocked listing
    returns the registered gists, in their order, after one request per
    registered page. *)
Theorem mock_gist_request_round_trip (username : string)
        (gists : list json_value) (per_page : nat) (order : list nat)
        (fuel : nat) (st : state) :
  0 < per_page ->
  ceil_div (length gists) per_page + 1 <= fuel ->
  gists_for_user
    (tests.mocked (tests.mock_gist_request tests.no_mocks username gists per_page)
                  order)
    fuel username st =
  Some (Ok gists,
        sent st (page_requests (gists_url_for username) 1
                               (ceil_div (length gists) per_page + 1))).
Proof.
  intros Hp Hfuel. unfold gists_for_user.
  exact (loop_pages _ _ per_page gists Hp
           (mock_gist_request_serves username gists per_page order Hp)
           (ceil_div (length gists) per_page) 0 fuel st eq_refl Hfuel).
Qed.

(** ** The scan, further *)

Section ScanMore.
Context {RE : re.Impl}.
Variable w : world.

Lemma fate_none_inv p url :
  fate w p url = None ->
  exists u response,
    url = JString u /\ session_get w u = Some response /\
    aiohttp.status response = OK /\
    re.Pattern_match p (aiohttp.text response) = false.
Proof.
  unfold fate, check_file_contains_pattern.
  destruct url; try discriminate.
  destruct (session_get w s) as [response|] eqn:Hget; [|discriminate].
  destruct (Z.eqb_spec (aiohttp.status response) OK) as [Hs|]; [|discriminate].
  destruct (re.Pattern_match p (aiohttp.text response)) eqn:Hm; [discriminate|].
  intros _. exists s, response. auto.
Qed.

Lemma fate_github_inv p url code payload :
  fate w p url = Some (GitHubError code payload) ->
  exists u response,
    url = JString u /\ session_get w u = Some response /\
    aiohttp.status response = code /\ code <> OK /\
    aiohttp.json response = payload.
Proof.
  unfold fate, check_file_contains_pattern.
  destruct url; try discriminate.
  destruct (session_get w s) as [response|] eqn:Hget; [|discriminate].
  destruct (Z.eqb_spec (aiohttp.status response) OK) as [|Hne].
  - destruct (re.Pattern_match p (aiohttp.text response)); discriminate.
  - intros H. inversion H; subst. exists s, response. auto.
Qed.

Lemma getitem_raises obj key e :
  getitem obj key = Raise e -> e = KeyError key \/ e = TypeError.
Proof.
  unfold getitem. destruct obj; intros H; inversion H; auto.
  destruct (dict_get items key); inversion H; auto.
Qed.

Lemma raw_urls_raise : forall vs,
  (exists v, In v vs /\ forall u, getitem v "raw_url" <> Ok u) ->
  exists e, raw_urls vs = Raise e /\ (e = KeyError "raw_url" \/ e = TypeError).
Proof.
  induction vs as [|v0 vs IH]; intros (v & Hin & Hbad); [contradiction|].
  cbn [raw_urls].
  destruct (getitem v0 "raw_url") as [u|e] eqn:Hv0.
  - destruct Hin as [->|Hin]; [exfalso; exact (Hbad u Hv0)|].
    destruct (IH (ex_intro _ v (conj Hin Hbad))) as (e & -> & He). eauto.
  - exists e. split; [reflexivity|]. exact (getitem_raises _ _ _ Hv0).
Qed.

Lemma fetching_count_set_nth x : forall ts i u,
  nth_error ts i = Some (Fetching u) ->
  S (fetching_count (set_nth i (Finished x) ts)) = fetching_count ts.
Proof.
  induction ts as [|t ts IH]; intros [|i] u H; cbn in *; try discriminate.
  - now inversion H.
  - destruct t; cbn; eauto.
Qed.

Lemma fetching_count_le ts : fetching_count ts <= length ts.
Proof. induction ts as [|[] ts IH]; cbn; lia. Qed.

Lemma enter_start_balance : forall files_urls sem,
  length files_urls <= sem ->
  enter sem (map Blocked files_urls) =
  (map first_state files_urls,
   sem - fetching_count (map first_state files_urls),
   gets files_urls, immediate files_urls).
Proof.
  induction files_urls as [|url urls IH]; intros sem Hsem.
  - cbn. now rewrite Nat.sub_0_r.
  - cbn in Hsem. destruct sem as [|sem]; [lia|].
    destruct url; cbn [map enter first_state gets immediate fetching_count];
      try (rewrite (IH (S sem)) by lia; reflexivity).
    rewrite (IH sem) by lia. reflexivity.
Qed.

Lemma arrivals_keep p files_urls : forall order lp,
  loop_inv w p files_urls lp ->
  semaphore lp + fetching_count (tasks lp) = length files_urls ->
  let lp' := fold_left (fun lp i => resume w p (length files_urls) i lp) order lp in
  loop_inv w p files_urls lp' /\
  semaphore lp' + fetching_count (tasks lp') = length files_urls.
Proof.
  induction order as [|i order IH]; intros lp Hinv Hbal; cbn [fold_left];
    [auto|].
  apply IH.
  - apply resume_inv. assumption.
  - destruct (nth_error (tasks lp) i) as [[b|u|exc]|] eqn:Hi.
    1, 3, 4: rewrite resume_idle; [assumption|intros u'; congruence].
    rewrite (resume_fetching w p files_urls i lp u Hinv Hi).
    cbn [semaphore tasks].
    pose proof (fetching_count_set_nth (fate w p (JString u)) _ _ _ Hi). lia.
Qed.

Lemma run_complete p files_urls : forall order lp,
  loop_inv w p files_urls lp ->
  (forall i u, nth_error (tasks lp) i = Some (Fetching u) -> In i order) ->
  exists lp',
    run_until_complete w p (length files_urls) order lp = Some lp'.
Proof.
  induction order as [|j order IH]; intros lp Hinv Hpending.
  - destruct (outer (future lp)) as [r|] eqn:Hg.
    + exists lp. exact (run_done w p files_urls [] lp r Hg).
    + exfalso. pose proof Hinv as (Hlen & Hset & (Hfin & Hout) & Hreq).
      rewrite Hg in Hout. destruct Hout as [Hlt _].
      rewrite finished_count_all in Hlt; [lia|].
      intros k t Hk.
      destruct (inv_task_fate w p files_urls lp k t Hinv Hk)
        as (url & _ & [Hs|(u & _ & Hs)]); [eauto|].
      subst t. destruct (Hpending k u Hk).
  - destruct (outer (future lp)) as [r|] eqn:Hg.
    + exists lp. exact (run_done w p files_urls _ lp r Hg).
    + cbn. rewrite Hg. apply IH.
      * apply resume_inv. assumption.
      * intros i u Hi.
        destruct (nth_error (tasks lp) j) as [[b|uj|exc]|] eqn:Hj.
        1, 3, 4: rewrite resume_idle in Hi by (intros u'; congruence);
          destruct (Hpending i u Hi) as [<-|Hin]; [congruence|assumption].
        rewrite (resume_fetching w p files_urls j lp uj Hinv Hj) in Hi.
        cbn [tasks] in Hi. apply nth_error_set_nth in Hi.
        destruct Hi as [[_ Hi]|[Hne Hi]]; [discriminate|].
        destruct (Hpending i u Hi) as [<-|Hin]; [contradiction|assumption].
Qed.
End ScanMore.

(** X5. A scan sends one GET per file of the gist, in the order of its
    [files], whatever it ends with: a match in the first answer does not
    spare the requests for the other files.  It writes nothing to the log. *)
Theorem scan_requests_every_file {RE : re.Impl} (w : world) (gist : json_value)
        (p : re.Pattern) (st st' : state) (r : result bool) (urls : list string) :
  files_urls_of gist = Ok (map JString urls) ->
  gist_contains_pattern w gist p st = Some (r, st') ->
  net st' = net st ++ map SessionGet urls /\ log st' = log st.
Proof.
  intros Hfiles Hscan. apply scan_state in Hscan. subst st'.
  unfold file_requests. rewrite Hfiles, gets_strings. auto.
Qed.

(** X6. What a scan returns is backed by the answers of the gist's own
    files: [True] only when one of them was fetched with content the
    pattern matches; [False] only when every one of them was fetched with
    status 200 and none matches; a [GitHubError] only with the status and
    body of a file answered with a status other than 200.  [PatternFound]
    never leaves the scan. *)
Theorem scan_sound {RE : re.Impl} (w : world) (gist : json_value)
        (p : re.Pattern) (st st' : state) (r : result bool) :
  gist_contains_pattern w gist p st = Some (r, st') ->
  match r with
  | Ok true => has_matching_file w p gist
  | Ok false =>
      exists files_urls,
        files_urls_of gist = Ok files_urls /\
        forall url, In url files_urls ->
          exists u response,
            url = JString u /\ session_get w u = Some response /\
            aiohttp.status response = OK /\
            re.Pattern_match p (aiohttp.text response) = false
  | Raise PatternFound => False
  | Raise (GitHubError code payload) =>
      exists files_urls u response,
        files_urls_of gist = Ok files_urls /\
        In (JString u) files_urls /\
        session_get w u = Some response /\
        aiohttp.status response = code /\ code <> OK /\
        aiohttp.json response = payload
  | Raise _ => True
  end.
Proof.
  intros Hscan.
  pose proof (scan_inv w _ _ _ _ _ Hscan) as Hinv.
  destruct r as [[|]|e].
  - apply gist_matches_iff. symmetry. exact (scan_found w _ _ _ _ _ Hscan).
  - destruct (files_urls_of gist) as [files_urls|e]; [|destruct Hinv; discriminate].
    exists files_urls. split; [reflexivity|].
    intros url Hin. apply fate_none_inv. now apply Hinv.
  - destruct (files_urls_of gist) as [files_urls|e0] eqn:Hfiles.
    + destruct Hinv as (_ & Hne & url & Hin & Hfate).
      destruct e; try exact I; [congruence|].
      destruct (fate_github_inv w p url _ _ Hfate)
        as (u & response & -> & Hget & Hs & Hc & Hj).
      exists files_urls, u, response. auto 8.
    + destruct Hinv as [Hr _]. inversion Hr; subst e0.
      destruct e; try exact I; exfalso; unfold files_urls_of in Hfiles;
        destruct (getitem gist "files") as [files|e1] eqn:Hg;
        try (inversion Hfiles; subst;
             destruct (getitem_raises _ _ _ Hg); discriminate);
        destruct (values files) as [vs|e2] eqn:Hv;
        try (destruct files; cbn in Hv; inversion Hv; subst; discriminate);
        clear Hv Hg; induction vs as [|v vs IHv]; cbn in Hfiles;
        try discriminate;
        destruct (getitem v "raw_url") eqn:Hraw;
        try (inversion Hfiles; subst;
             destruct (getitem_raises _ _ _ Hraw); discriminate);
        destruct (raw_urls vs); try discriminate; auto.
Qed.

(** X7. When a file of a gist has no [raw_url], the scan raises [KeyError]
    (or [TypeError], when the entry is no object) before any request is
    sent, also for the files that have one. *)
Theorem scan_of_malformed_file {RE : re.Impl} (w : world) (gist : json_value)
        (items : list (string * json_value)) :
  getitem gist "files" = Ok (JObject items) ->
  (exists name file, In (name, file) items /\
                     forall u, getitem file "raw_url" <> Ok u) ->
  exists e,
    (e = KeyError "raw_url" \/ e = TypeError) /\
    forall p st, gist_contains_pattern w gist p st = Some (Raise e, st).
Proof.
  intros Hfiles (name & file & Hin & Hbad).
  destruct (raw_urls_raise (map snd items)) as (e & Hraise & He).
  { exists file. split; [|assumption].
    apply in_map_iff. exists (name, file). auto. }
  exists e. split; [assumption|]. intros p st.
  unfold gist_contains_pattern, bind, lift, files_urls_of.
  rewrite Hfiles. cbn [values]. rewrite Hraise. reflexivity.
Qed.

(** X8. Throughout a scan no task waits for the semaphore: its value and
    the number of requests in flight always add up to the number of files
    of the gist. *)
Theorem semaphore_never_blocks {RE : re.Impl} (w : world) (p : re.Pattern)
        (files_urls : list json_value) (order : list nat) :
  semaphore (after_arrivals w p files_urls order)
  + fetching_count (tasks (after_arrivals w p files_urls order))
  = length files_urls
  /\ forall k u,
       nth_error (tasks (after_arrivals w p files_urls order)) k
       <> Some (Blocked u).
Proof.
  unfold after_arrivals.
  destruct (arrivals_keep w p files_urls order (start files_urls)
              (start_inv w p files_urls)) as [Hinv Hbal].
  - unfold start. rewrite enter_start_balance by lia. cbn [semaphore tasks].
    pose proof (fetching_count_le (map first_state files_urls)) as Hle.
    rewrite length_map in Hle. lia.
  - split; [assumption|]. apply (inv_no_blocked w p files_urls _ Hinv).
Qed.

Lemma scan_healthy {RE : re.Impl} (w : world) (gist : json_value)
      (p : re.Pattern) (st : state) (urls : list string) :
  files_urls_of gist = Ok (map JString urls) ->
  (forall u, In u urls ->
     exists response, session_get w u = Some response /\
                      aiohttp.status response = OK) ->
  (forall i, i < length urls ->
     In i (completion_order w (net st ++ map SessionGet urls))) ->
  gist_contains_pattern w gist p st =
    Some (Ok (gist_matches w p gist), sent st (map SessionGet urls)).
Proof.
  intros Hfiles Hok Horder.
  destruct (gist_contains_pattern w gist p st) as [[r st']|] eqn:Hscan.
  - pose proof (scan_state w _ _ _ _ _ Hscan) as Hst.
    unfold file_requests in Hst. rewrite Hfiles, gets_strings in Hst. subst st'.
    destruct r as [b|e].
    + now rewrite (scan_found w _ _ _ _ _ Hscan).
    + exfalso. apply scan_inv in Hscan. rewrite Hfiles in Hscan.
      destruct Hscan as (_ & Hne & url & Hin & Hfate).
      apply in_map_iff in Hin. destruct Hin as (u & <- & Hin).
      destruct (Hok u Hin) as (response & Hget & Hs).
      unfold fate, check_file_contains_pattern in Hfate.
      rewrite Hget, Hs in Hfate. cbn in Hfate.
      destruct (re.Pattern_match p (aiohttp.text response)); congruence.
  - exfalso. unfold gist_contains_pattern, bind, lift in Hscan.
    rewrite Hfiles in Hscan.
    pose proof (start_inv w p (map JString urls)) as Hinv.
    assert (Hreq : requested (start (map JString urls)) = map SessionGet urls)
      by (rewrite <- gets_strings; apply Hinv).
    rewrite Hreq in Hscan.
    destruct (run_complete w p (map JString urls)
                (completion_order w (net st ++ map SessionGet urls))
                (start (map JString urls)) Hinv) as [lp' Hrun].
    { intros i u Hi. apply Horder. rewrite <- (length_map JString).
      destruct Hinv as (Hlen & _). rewrite <- Hlen.
      apply nth_error_Some. congruence. }
    rewrite Hrun in Hscan.
    destruct (run_inv w p (map JString urls) _ _ _ Hinv Hrun) as [_ Hdone].
    destruct (outer (future lp')) as [[e|]|]; [| |congruence];
      try destruct e; discriminate.
Qed.

(** X9. When every file of a gist is answered with status 200 and every
    answer comes, the order of the answers does not matter: the scan
    returns [True] exactly when the pattern matches the content of one of
    the files. *)
Theorem scan_without_errors {RE : re.Impl} (w : world) (gist : json_value)
        (p : re.Pattern) (st : state) (urls : list string) :
  files_urls_of gist = Ok (map JString urls) ->
  (forall u, In u urls ->
     exists response, session_get w u = Some response /\
                      aiohttp.status response = OK) ->
  (forall i, i < length urls ->
     In i (completion_order w (net st ++ map SessionGet urls))) ->
  gist_contains_pattern w gist p st =
    Some (Ok (gist_matches w p gist), sent st (map SessionGet urls)).
Proof. exact (scan_healthy w gist p st urls). Qed.


(** ** The responses of the search route *)

Section ResponseMore.
Context {RE : re.Impl}.
Variable w : world.

Lemma lister_raises url : forall fuel page gists st e st',
  gists_for_user_loop w fuel url page gists st = Some (Raise e, st') ->
  (exists code payload, e = GitHubError code payload)
  \/ e = ConnectionError \/ e = TypeError.
Proof.
  induction fuel as [|fuel IH]; intros page gists st e st' H; [discriminate|].
  cbn in H. unfold requests_get_page, bind, send in H.
  destruct (requests_get w url page) as [response|]; cbn in H.
  - destruct (negb (requests.status_code response =? OK)%Z).
    + inversion H. eauto.
    + destruct (negb (truthy (requests.json response))); [discriminate|].
      unfold lift in H.
      destruct (list_iadd gists (requests.json response)) as [gists'|e0] eqn:Hadd.
      * eapply IH. eassumption.
      * inversion H; subst.
        destruct (requests.json response); cbn in Hadd; inversion Hadd; auto.
  - inversion H. auto.
Qed.

Lemma files_urls_of_raises gist e :
  files_urls_of gist = Raise e ->
  (exists key, e = KeyError key) \/ e = TypeError \/ e = AttributeError.
Proof.
  unfold files_urls_of.
  destruct (getitem gist "files") as [files|e1] eqn:Hg.
  - destruct (values files) as [vs|e2] eqn:Hv.
    + clear Hv Hg. induction vs as [|v vs IHv]; cbn; [discriminate|].
      destruct (getitem v "raw_url") eqn:Hraw.
      * destruct (raw_urls vs); [discriminate|]. auto.
      * intros H. inversion H; subst.
        destruct (getitem_raises _ _ _ Hraw); eauto.
    + intros H. inversion H; subst.
      destruct files; cbn in Hv; inversion Hv; auto.
  - intros H. inversion H; subst. destruct (getitem_raises _ _ _ Hg); eauto.
Qed.

Lemma scan_never_invalid_pattern gist p st msg st' :
  gist_contains_pattern w gist p st <> Some (Raise (re_error msg), st').
Proof.
  intros H. apply scan_inv in H.
  destruct (files_urls_of gist) as [files_urls|e] eqn:Hf.
  - destruct H as (_ & _ & url & _ & Hfate).
    unfold fate, check_file_contains_pattern in Hfate.
    destruct url; try discriminate.
    destruct (session_get w s) as [response|]; [|discriminate].
    destruct (aiohttp.status response =? OK)%Z; [|discriminate].
    destruct (re.Pattern_match p (aiohttp.text response)); discriminate.
  - destruct H as [H _]. inversion H; subst e.
    destruct (files_urls_of_raises _ _ Hf) as [[key Hk]|[Hk|Hk]]; discriminate.
Qed.

(** Only [re.compile] raises [re.error], and it does so before any scan. *)
Lemma search_loop_invalid_pattern : forall gists pat acc st msg st',
  search_loop w gists pat acc st = Some (Raise (re_error msg), st') ->
  re.compile pat re.S = inl msg /\ st' = st /\ gists <> [].
Proof.
  induction gists as [|gist gists IH]; intros pat acc st msg st' H;
    [discriminate|].
  rewrite search_loop_step in H.
  destruct (re.compile pat re.S) as [m|p] eqn:Hc.
  - inversion H; subst. repeat split. discriminate.
  - exfalso.
    destruct (gist_contains_pattern w gist p st) as [[[b|e] st1]|] eqn:Hscan;
      try discriminate.
    + assert (Hnext : exists acc',
                 search_loop w gists pat acc' st1 = Some (Raise (re_error msg), st')).
      { destruct b; [|eauto].
        destruct (getitem gist "url") as [url|e] eqn:Hurl; [eauto|].
        inversion H; subst.
        destruct (getitem_raises _ _ _ Hurl); discriminate. }
      destruct Hnext as [acc' Hnext].
      destruct (IH _ _ _ _ _ Hnext) as (Hc' & _). congruence.
    + inversion H; subst. exact (scan_never_invalid_pattern _ _ _ _ _ Hscan).
Qed.

Lemma search_loop_trace : forall gists pat acc st r st',
  search_loop w gists pat acc st = Some (r, st') ->
  exists calls, st' = sent st calls.
Proof.
  induction gists as [|gist gists IH]; intros pat acc st r st' H.
  - inversion H. exists []. now rewrite sent_nil.
  - rewrite search_loop_step in H.
    destruct (re.compile pat re.S) as [m|p].
    + inversion H. exists []. now rewrite sent_nil.
    + destruct (gist_contains_pattern w gist p st) as [[[b|e] st1]|] eqn:Hscan;
        try discriminate.
      * pose proof (scan_state w _ _ _ _ _ Hscan) as ->.
        assert (Hnext : (exists acc', search_loop w gists pat acc'
                                        (sent st (file_requests gist)) = Some (r, st'))
                        \/ st' = sent st (file_requests gist)).
        { destruct b; [|eauto].
          destruct (getitem gist "url"); [eauto|]. inversion H. auto. }
        destruct Hnext as [[acc' Hnext]| ->]; [|eauto].
        destruct (IH _ _ _ _ _ Hnext) as [calls ->].
        rewrite sent_sent. eauto.
      * inversion H; subst. pose proof (scan_state w _ _ _ _ _ Hscan). eauto.
Qed.

Lemma search_trace fuel data st r st' :
  search w fuel data st = Some (r, st') -> exists calls, st' = sent st calls.
Proof.
  rewrite search_unfold. intros H.
  destruct (gists_for_user w fuel (username data) st) as [[[gists|e] st1]|] eqn:Hl;
    [| |discriminate]; unfold gists_for_user in Hl;
    destruct (loop_trace w _ _ _ _ _ _ _ Hl) as (count & _ & ->).
  - destruct (search_loop w gists (pattern data) [] _) as [[[m|e] st2]|] eqn:Hloop;
      [| |discriminate]; inversion H; subst;
      destruct (search_loop_trace _ _ _ _ _ _ Hloop) as [calls ->];
      rewrite sent_sent; eauto.
  - inversion H; subst. eauto.
Qed.

(** With every gist well formed, every file answered with 200 and every
    answer coming, the loop of the search goes through all the gists. *)
Lemma search_loop_healthy p pat : forall gists urls acc st,
  re.compile pat re.S = inr p ->
  Forall2 url_of gists urls ->
  (forall gist, In gist gists ->
     exists us,
       files_urls_of gist = Ok (map JString us) /\
       (forall u, In u us ->
          exists response, session_get w u = Some response /\
                           aiohttp.status response = OK) /\
       (forall calls i, i < length us -> In i (completion_order w calls))) ->
  search_loop w gists pat acc st =
    Some (Ok (acc ++ expected_matches w p gists urls),
          sent st (flat_map file_requests gists)).
Proof.
  intros gists urls acc st Hc Hurls. revert acc st.
  induction Hurls as [|gist url gists urls Hurl Hrest IH]; intros acc st Hgood.
  - cbn. now rewrite app_nil_r, sent_nil.
  - rewrite search_loop_step, Hc.
    destruct (Hgood gist (or_introl eq_refl)) as (us & Hfiles & Hok & Horder).
    rewrite (scan_healthy w gist p st us Hfiles Hok (fun i Hi => Horder _ i Hi)).
    assert (Hreq : file_requests gist = map SessionGet us)
      by (unfold file_requests; rewrite Hfiles; apply gets_strings).
    cbn [flat_map expected_matches]. rewrite Hreq, <- sent_sent.
    destruct (gist_matches w p gist).
    + rewrite Hurl, IH by (intros g Hg; apply Hgood; now right).
      now rewrite <- app_assoc.
    + apply IH. intros g Hg. apply Hgood. now right.
Qed.
End ResponseMore.

(** X10. The search route answers 400 only when the pattern does not
    compile: the listing had then succeeded with at least one gist, no file
    was fetched, and the message carries the diagnostic of [re.compile]. *)
Theorem bad_request_only_for_invalid_pattern {RE : re.Impl} (w : world)
        (fuel : nat) (data : post_data) (st st' : state) (resp : http_response) :
  post_search w fuel data st = Some (resp, st') ->
  status_code resp = 400%Z ->
  exists msg gists,
    re.compile (pattern data) re.S = inl msg /\
    gists_for_user w fuel (username data) st = Some (Ok gists, st') /\
    gists <> [] /\
    body resp = JObject [("error", JString ("Invalid pattern, " ++ msg)%string)].
Proof.
  intros Hpost Hstatus. rewrite post_search_unfold in Hpost.
  assert (Hhandler : forall e st0, status_code (fst (exception_handler e st0)) = 400%Z ->
                                   exists msg, e = re_error msg)
    by (intros e st0; destruct e; cbn; intros H; try discriminate; eauto).
  destruct (gists_for_user w fuel (username data) st) as [[[gists|e] st1]|] eqn:Hl;
    [| |discriminate].
  - destruct (search_loop w gists (pattern data) [] st1) as [[[m|e] st2]|] eqn:Hloop;
      [| |discriminate].
    + inversion Hpost; subst. discriminate.
    + injection Hpost as Hpost.
      destruct (Hhandler e st2) as [msg ->]; [now rewrite Hpost|].
      destruct (search_loop_invalid_pattern w _ _ _ _ _ _ Hloop) as (Hc & -> & Hne).
      cbn in Hpost. inversion Hpost; subst. exists msg, gists. auto.
  - injection Hpost as Hpost. exfalso.
    destruct (Hhandler e st1) as [msg ->]; [now rewrite Hpost|].
    unfold gists_for_user in Hl.
    destruct (lister_raises w _ _ _ _ _ _ _ Hl) as [(c & pl & H)|[H|H]];
      discriminate.
Qed.

(** X11. A request to the search route writes to the log at most once, and
    only when it answers 500 for a [GitHubError]: the record holds the
    status (never 200) and the payload of that error.  In all other cases
    the log is left as it was; the requests sent are only added to. *)
Theorem log_only_on_remote_error {RE : re.Impl} (w : world) (fuel : nat)
        (data : post_data) (st st' : state) (resp : http_response) :
  post_search w fuel data st = Some (resp, st') ->
  (exists calls, net st' = net st ++ calls) /\
  (log st' = log st
   \/ exists code payload,
        log st' = log st ++ [github_log_record code payload] /\
        code <> OK /\
        search w fuel data st =
          Some (Raise (GitHubError code payload),
                {| net := net st'; log := log st |}) /\
        resp = make_response internal_error 500).
Proof.
  unfold post_search. intros Hpost.
  destruct (search w fuel data st) as [[[result|e] st1]|] eqn:Hsearch;
    [| |discriminate].
  - inversion Hpost; subst.
    destruct (search_trace w _ _ _ _ _ Hsearch) as [calls ->]. cbn. eauto.
  - destruct (search_trace w _ _ _ _ _ Hsearch) as [calls ->].
    destruct e as [|code payload| | | | | |];
      cbn in Hpost; inversion Hpost; subst; cbn; eauto.
    split; [eauto|]. right. exists code, payload.
    split; [reflexivity|]. split; [|split; [reflexivity|reflexivity]].
    rewrite search_unfold in Hsearch.
    destruct (gists_for_user w fuel (username data) st) as [[[gists|e] st0]|] eqn:Hl;
      [| |discriminate].
    + destruct (search_loop w gists (pattern data) [] st0) as [[[m|e] st2]|] eqn:Hloop;
        try discriminate.
      inversion Hsearch; subst e st2.
      destruct (search_loop_error w _ _ _ _ _ _ _ Hloop)
        as (before & gist & after & p & ms & stk & _ & _ & _ & Hscan & _).
      destruct (scan_error_origin w _ _ _ _ _ _ Hscan) as (u & r & _ & _ & _ & Hne).
      assumption.
    + inversion Hsearch; subst e st0. unfold gists_for_user in Hl.
      destruct (lister_error_origin w _ _ _ _ _ _ _ _ Hl) as (k & r & _ & _ & _ & Hne).
      assumption.
Qed.

(** X12. With a listing that succeeds, a pattern that compiles, gists that
    each have a [url] and [files] with a [raw_url], every file answered
    with status 200 and every answer coming, the search answers 200: its
    matches are the URLs of the gists of which a file matches, in the order
    of the listing, and every file of every gist was requested, once. *)
Theorem healthy_search_succeeds {RE : re.Impl} (w : world) (fuel : nat)
        (data : post_data) (st st1 : state) (p : re.Pattern)
        (gists urls : list json_value) :
  gists_for_user w fuel (username data) st = Some (Ok gists, st1) ->
  re.compile (pattern data) re.S = inr p ->
  Forall2 url_of gists urls ->
  (forall gist, In gist gists ->
     exists us,
       files_urls_of gist = Ok (map JString us) /\
       (forall u, In u us ->
          exists response, session_get w u = Some response /\
                           aiohttp.status response = OK) /\
       (forall calls i, i < length us -> In i (completion_order w calls))) ->
  post_search w fuel data st =
    Some (make_response (search_result data (expected_matches w p gists urls)) 200,
          sent st1 (flat_map file_requests gists)).
Proof.
  intros Hl Hc Hurls Hgood. rewrite post_search_unfold, Hl.
  now rewrite (search_loop_healthy w p (pattern data) gists urls [] st1 Hc Hurls Hgood).
Qed.

(** ** The fixtures, scanned *)









(** ** Scenarios for the further properties *)

Section MoreWitnesses.
Import tests scenarios more_scenarios.

(** One page of one gist, then an empty object. *)
Lemma lister_concatenates_pages_witness :
  gists_for_user ends_with_object 2 TEST_USERNAME empty_state
    = Some (Ok (concat [[gist_all]]), listed 2).
Proof.
  apply (lister_concatenates_pages ends_with_object TEST_USERNAME [[gist_all]]
           {| requests.status_code := 200; requests.json := JObject [] |}
           2 empty_state).
  - intros i items Hi. destruct i as [|[|i]]; simpl in Hi; inversion Hi.
    split; [discriminate|vm_compute; reflexivity].
  - vm_compute. reflexivity.
  - reflexivity.
  - reflexivity.
  - simpl. lia.
Defined.

Lemma lister_never_returns_witness :
  gists_for_user endless 50 TEST_USERNAME empty_state = None.
Proof.
  apply (lister_never_returns endless TEST_USERNAME 50 empty_state).
  intros page Hpage. exists [fake_gist TEST_USERNAME []].
  split; [discriminate|reflexivity].
Defined.

Lemma lister_sends_only_pages_witness :
  exists count,
    0 < count /\
    net (listed 2)
      = net empty_state ++ map (RequestsGet (gists_url_for TEST_USERNAME)) (seq 1 count) /\
    log (listed 2) = log empty_state.
Proof.
  apply (lister_sends_only_pages second_page_error TEST_USERNAME 2 empty_state
           (listed 2) (Raise (GitHubError 403 listing_error_payload))).
  vm_compute. reflexivity.
Defined.

(** Three gists, two per page. *)
Lemma mock_gist_request_round_trip_witness :
  gists_for_user paged_by_two 3 TEST_USERNAME empty_state
    = Some (Ok three_gists, listed 3).
Proof.
  apply (mock_gist_request_round_trip TEST_USERNAME three_gists 2 [] 3 empty_state).
  - lia.
  - simpl. lia.
Defined.

(** The first answer is a match; the second file was requested all the
    same. *)
Lemma scan_requests_every_file_witness :
  net (sent empty_state
            (map SessionGet [file_url page1_gist_files "file1.txt";
                             file_url page1_gist_files "file2.txt"]))
    = net empty_state
      ++ map SessionGet [file_url page1_gist_files "file1.txt";
                         file_url page1_gist_files "file2.txt"]
  /\ log (sent empty_state
               (map SessionGet [file_url page1_gist_files "file1.txt";
                                file_url page1_gist_files "file2.txt"]))
     = log empty_state.
Proof.
  apply (scan_requests_every_file (RE := PyRe_Impl) (fetch_error [0; 1])
           page1_gist (compiled ".*Roosevelt") empty_state
           (sent empty_state
                 (map SessionGet [file_url page1_gist_files "file1.txt";
                                  file_url page1_gist_files "file2.txt"]))
           (Ok true)
           [file_url page1_gist_files "file1.txt";
            file_url page1_gist_files "file2.txt"]).
  - vm_compute. reflexivity.
  - vm_compute. reflexivity.
Defined.

Lemma scan_sound_witness :
  has_matching_file (RE := PyRe_Impl) (fetch_error [0; 1])
                    (compiled ".*Roosevelt") page1_gist.
Proof.
  apply (scan_sound (RE := PyRe_Impl) (fetch_error [0; 1]) page1_gist
           (compiled ".*Roosevelt") empty_state
           (sent empty_state
                 (map SessionGet [file_url page1_gist_files "file1.txt";
                                  file_url page1_gist_files "file2.txt"]))
           (Ok true)).
  vm_compute. reflexivity.
Defined.

Lemma scan_of_malformed_file_witness :
  exists e,
    (e = KeyError "raw_url" \/ e = TypeError) /\
    forall p st,
      gist_contains_pattern (RE := PyRe_Impl) (single_page []) broken_gist p st
        = Some (Raise e, st).
Proof.
  apply (scan_of_malformed_file (RE := PyRe_Impl) (single_page []) broken_gist
           [("a.txt", JObject [("raw_url", JString "https://gist.githubusercontent.com/a.txt")]);
            ("b.txt", JObject [("filename", JString "b.txt")])]).
  - reflexivity.
  - exists "b.txt", (JObject [("filename", JString "b.txt")]). split.
    + simpl. auto.
    + intros u. simpl. discriminate.
Defined.

(** The three files of the fixtures, answered in another order. *)
Lemma scan_without_errors_witness :
  gist_contains_pattern (RE := PyRe_Impl) (single_page [2; 0; 1]) gist_all
                        (compiled ".*Clara Peller.*") empty_state
    = Some (Ok (gist_matches (RE := PyRe_Impl) (single_page [2; 0; 1])
                             (compiled ".*Clara Peller.*") gist_all),
            sent empty_state
                 (map SessionGet [file_url TEST_GIST_FILES "file1.txt";
                                  file_url TEST_GIST_FILES "file2.txt";
                                  file_url TEST_GIST_FILES "file3.txt"])).
Proof.
  apply (scan_without_errors (RE := PyRe_Impl) (single_page [2; 0; 1]) gist_all
           (compiled ".*Clara Peller.*") empty_state
           [file_url TEST_GIST_FILES "file1.txt";
            file_url TEST_GIST_FILES "file2.txt";
            file_url TEST_GIST_FILES "file3.txt"]).
  - vm_compute. reflexivity.
  - intros u [<-|[<-|[<-|[]]]]; eexists; (split; [vm_compute; reflexivity|reflexivity]).
  - intros i Hi. simpl in Hi.
    destruct i as [|[|[|i]]]; simpl; auto. lia.
Defined.

Lemma bad_request_only_for_invalid_pattern_witness :
  exists msg gists,
    PyRe.compile "[" re.S = inl msg /\
    gists_for_user (single_page [0; 1; 2]) 2 TEST_USERNAME empty_state
      = Some (Ok gists, listed 2) /\
    gists <> [] /\
    JObject [("error",
              JString "Invalid pattern, unterminated character set at position 0")]
      = JObject [("error", JString ("Invalid pattern, " ++ msg)%string)].
Proof.
  apply (bad_request_only_for_invalid_pattern (RE := PyRe_Impl)
           (single_page [0; 1; 2]) 2 (request "[") empty_state (listed 2)
           {| status_code := 400;
              body := JObject [("error",
                                JString "Invalid pattern, unterminated character set at position 0")] |}).
  - vm_compute. reflexivity.
  - reflexivity.
Defined.

Lemma log_only_on_remote_error_witness :
  (exists calls, net (logger_error "GitHub API error: %s (%s)"
                                   listing_error_payload 403 (listed 1))
                 = net empty_state ++ calls) /\
  (log (logger_error "GitHub API error: %s (%s)" listing_error_payload 403 (listed 1))
     = log empty_state
   \/ exists code payload,
        log (logger_error "GitHub API error: %s (%s)" listing_error_payload 403 (listed 1))
          = log empty_state ++ [github_log_record code payload] /\
        code <> OK /\
        search (RE := PyRe_Impl) listing_error 1 (request ".*") empty_state
          = Some (Raise (GitHubError code payload),
                  {| net := net (logger_error "GitHub API error: %s (%s)"
                                              listing_error_payload 403 (listed 1));
                     log := log empty_state |}) /\
        make_response internal_error 500 = make_response internal_error 500).
Proof.
  apply (log_only_on_remote_error (RE := PyRe_Impl) listing_error 1 (request ".*")
           empty_state
           (logger_error "GitHub API error: %s (%s)" listing_error_payload 403
                         (listed 1))
           (make_response internal_error 500)).
  vm_compute. reflexivity.
Defined.

(** [test__search__multiple_pages_found], from the state of the remote
    service alone. *)
Lemma healthy_search_succeeds_witness :
  post_search (RE := PyRe_Impl) (multiple_pages [0; 1]) 3
              (request ".*Voltaire.*") empty_state
    = Some (make_response
              (search_result (request ".*Voltaire.*")
                 (expected_matches (RE := PyRe_Impl) (multiple_pages [0; 1])
                    (compiled ".*Voltaire.*") [page1_gist; page2_gist]
                    [gist_url page1_gist_files; gist_url page2_gist_files]))
              200,
            sent (listed 3) (flat_map file_requests [page1_gist; page2_gist])).
Proof.
  apply (healthy_search_succeeds (RE := PyRe_Impl) (multiple_pages [0; 1]) 3
           (request ".*Voltaire.*") empty_state (listed 3)
           (compiled ".*Voltaire.*") [page1_gist; page2_gist]
           [gist_url page1_gist_files; gist_url page2_gist_files]).
  - vm_compute. reflexivity.
  - vm_compute. reflexivity.
  - repeat constructor.
  - intros gist [<-|[<-|[]]].
    + exists [file_url page1_gist_files "file1.txt";
              file_url page1_gist_files "file2.txt"].
      split; [vm_compute; reflexivity|]. split.
      * intros u [<-|[<-|[]]]; eexists;
          (split; [vm_compute; reflexivity|reflexivity]).
      * intros calls i Hi. simpl in Hi. destruct i as [|[|i]]; simpl; auto. lia.
    + exists [file_url page2_gist_files "file3.txt"].
      split; [vm_compute; reflexivity|]. split.
      * intros u [<-|[]]; eexists;
          (split; [vm_compute; reflexivity|reflexivity]).
      * intros calls i Hi. simpl in Hi. destruct i as [|i]; simpl; auto. lia.
Defined.

End MoreWitnesses.
